(** * util/road_graph.py: the road network graph, embedded and verified

    The module defines three classes: [Edge] (an attribute container),
    [VertexOutgoingEdges] (a dict-like container of the edges leaving one
    vertex, with a reference to its parent graph) and [RoadGraph] (a dict-like
    container of [VertexOutgoingEdges], the edge weight function and the
    reversal).

    Python objects are mutable and shared by reference, so the embedding keeps
    an object store and passes it through every method: a method is a function
    from the store to an outcome (a result or a raised exception) and the store
    it leaves behind. *)

From stdpp Require Import gmap strings list fin_maps.

Local Open Scope string_scope.
Local Open Scope list_scope.

(** ** Values and outcomes *)

Definition loc := positive.
Bind Scope positive_scope with loc.

(** The first-order Python values that reach this module: [None], numbers,
    strings and references to plain instances (of [Edge], typically: objects
    with an attribute dictionary that cannot be called). They serve as vertex
    identifiers, attribute values and dictionary entries. *)
Inductive value : Type :=
| VNone
| VNum (n : Z)
| VStr (s : string)
| VObj (l : loc).

Global Instance value_eq_dec : EqDecision value.
Proof. solve_decision. Defined.

(** The exceptions the module can raise. *)
Inductive exn : Type :=
| KeyError
| ValueError
| AttributeError
| TypeError.

Global Instance exn_eq_dec : EqDecision exn.
Proof. solve_decision. Defined.

(** [Stuck] is the one outcome that is not Python's: a reference that points
    outside the store, which no execution produces. *)
Inductive outcome (A : Type) : Type :=
| Ret (a : A)
| Raise (e : exn)
| Stuck.

Arguments Ret {A} a.
Arguments Raise {A} e.
Arguments Stuck {A}.

(** ** Python dictionaries

    A [dict] is kept as the list of its items in iteration order, because
    [reverse] iterates over dictionaries. Keys are compared with [==]; a
    lookup takes the first item with the key, an assignment to a present key
    replaces the value in place and an assignment to a new key adds an item at
    the end. *)
Section dict.
Context {V : Type}.

Definition dict : Type := list (value * V).

Fixpoint dict_get (k : value) (d : dict) : option V :=
  match d with
  | [] => None
  | (k', v) :: d' => if decide (k' = k) then Some v else dict_get k d'
  end.

Fixpoint dict_set (k : value) (v : V) (d : dict) : dict :=
  match d with
  | [] => [(k, v)]
  | (k', v') :: d' =>
      if decide (k' = k) then (k', v) :: d' else (k', v') :: dict_set k v d'
  end.

Fixpoint dict_del (k : value) (d : dict) : dict :=
  match d with
  | [] => []
  | (k', v') :: d' =>
      if decide (k' = k) then d' else (k', v') :: dict_del k d'
  end.

Definition dict_keys (d : dict) : list value := d.*1.
End dict.

Arguments dict V : clear implicits.

(** ** The object store *)

(** The weight function of a graph is a Python callable of one argument. It
    is given the argument and the instances it may read attributes of. *)
Definition pyfun : Type := gmap loc (gmap string value) → value → outcome value.

(** An argument of [set_edge_weight_function]: a first-order value or a
    callable. *)
Inductive pyarg : Type :=
| Val (v : value)
| Fn (f : pyfun).

Definition callable (a : pyarg) : bool :=
  match a with
  | Fn _ => true
  | Val _ => false
  end.

(** [self.road_graph] and [self.edges] of a [VertexOutgoingEdges]. *)
Record voe_object : Type := {
  road_graph : loc;
  edges : dict value
}.

(** [self.graph] and [self._edge_weight_fun] of a [RoadGraph]. The attribute
    [_edge_weight_fun] is absent until [set_edge_weight_function] first
    assigns it; it then holds the object that was assigned. *)
Record graph_object : Type := {
  graph : dict loc;
  _edge_weight_fun : option pyarg
}.

(** The store: the attribute dictionaries ([__dict__]) of the plain instances
    and the objects of the two container classes. *)
Record heap : Type := {
  instances : gmap loc (gmap string value);
  voes : gmap loc voe_object;
  graphs : gmap loc graph_object
}.

Definition empty_heap : heap :=
  {| instances := ∅; voes := ∅; graphs := ∅ |}.

(** ** The monad of methods *)

Definition M (A : Type) : Type := heap → outcome A * heap.

Definition ret {A} (a : A) : M A := λ h, (Ret a, h).

Definition raise {A} (e : exn) : M A := λ h, (Raise e, h).

Definition stuck {A} : M A := λ h, (Stuck, h).

Definition bind {A B} (c : M A) (k : A → M B) : M B :=
  λ h, match c h with
       | (Ret a, h') => k a h'
       | (Raise e, h') => (Raise e, h')
       | (Stuck, h') => (Stuck, h')
       end.

Declare Scope py_scope.
Delimit Scope py_scope with py.
Notation "x <- c ;; k" := (bind c (λ x, k))
  (at level 20, c at level 99, k at level 200, only parsing) : py_scope.
Notation "c ;;; k" := (bind c (λ _, k))
  (at level 100, k at level 200, right associativity, only parsing) : py_scope.
Local Open Scope py_scope.

(** [try: c  except e: handler] *)
Definition try_except {A} (c : M A) (e : exn) (handler : M A) : M A :=
  λ h, match c h with
       | (Raise e', h') => if decide (e' = e) then handler h' else (Raise e', h')
       | r => r
       end.

(** [for x in xs: body x] over the items an iterator yields. The keys of a
    dictionary are taken when the loop starts: [reverse] assigns to no
    dictionary it iterates over (see [reverse_arcs]: the old objects are as
    they were), so the iterator sees the same keys to the end. *)
Fixpoint for_each {A} (xs : list A) (body : A → M unit) : M unit :=
  match xs with
  | [] => ret tt
  | x :: xs' => body x ;;; for_each xs' body
  end.

(** [d[k]] on a dictionary. *)
Definition subscript {V} (d : dict V) (k : value) : M V :=
  match dict_get k d with
  | Some v => ret v
  | None => raise KeyError
  end.

(** ** Attributes of instances *)

Definition attrs_of (st : gmap loc (gmap string value)) (v : value)
  : gmap string value :=
  match v with
  | VObj l => default ∅ (st !! l)
  | _ => ∅
  end.

(** [hasattr(v, name)] and [v.name], for the attribute names of this module
    ([length], [time], [weight]), none of which [None], a number or a string
    has. *)
Definition hasattr (st : gmap loc (gmap string value)) (v : value)
    (name : string) : bool :=
  bool_decide (is_Some (attrs_of st v !! name)).

Definition getattr (st : gmap loc (gmap string value)) (v : value)
    (name : string) : outcome value :=
  match attrs_of st v !! name with
  | Some x => Ret x
  | None => Raise AttributeError
  end.

(** [v.name = x]: only an instance takes a new attribute. *)
Definition setattr (v : value) (name : string) (x : value) : M unit :=
  λ h, match v with
       | VObj l =>
           match instances h !! l with
           | Some a =>
               (Ret tt, {| instances := <[l := <[name := x]> a]> (instances h);
                           voes := voes h;
                           graphs := graphs h |})
           | None => (Stuck, h)
           end
       | _ => (Raise AttributeError, h)
       end.

(** [f(e)]: a callable is applied, any other object is not callable. *)
Definition call (f : pyarg) (e : value) : M value :=
  λ h, match f with
       | Fn f => (f (instances h) e, h)
       | Val _ => (Raise TypeError, h)
       end.

(** ** Reading, writing and creating container objects *)

Definition load_voe (l : loc) : M voe_object :=
  λ h, match voes h !! l with
       | Some o => (Ret o, h)
       | None => (Stuck, h)
       end.

Definition store_voe (l : loc) (o : voe_object) : M unit :=
  λ h, (Ret tt, {| instances := instances h;
                   voes := <[l := o]> (voes h);
                   graphs := graphs h |}).

Definition alloc_voe (o : voe_object) : M loc :=
  λ h, let l := fresh (dom (voes h)) in
       (Ret l, {| instances := instances h;
                  voes := <[l := o]> (voes h);
                  graphs := graphs h |}).

Definition load_graph (l : loc) : M graph_object :=
  λ h, match graphs h !! l with
       | Some o => (Ret o, h)
       | None => (Stuck, h)
       end.

Definition store_graph (l : loc) (o : graph_object) : M unit :=
  λ h, (Ret tt, {| instances := instances h;
                   voes := voes h;
                   graphs := <[l := o]> (graphs h) |}).

Definition alloc_graph (o : graph_object) : M loc :=
  λ h, let l := fresh (dom (graphs h)) in
       (Ret l, {| instances := instances h;
                  voes := voes h;
                  graphs := <[l := o]> (graphs h) |}).

Definition alloc_instance (a : gmap string value) : M loc :=
  λ h, let l := fresh (dom (instances h)) in
       (Ret l, {| instances := <[l := a]> (instances h);
                  voes := voes h;
                  graphs := graphs h |}).

(** ** class Edge *)
Module Edge.
(** A call of the class with the arguments [args]:
    [__init__(self, length)] takes exactly one of them, and any other call
    raises [TypeError] before an object is returned. *)
Definition __init__ (args : list value) : M value :=
  match args with
  | [length] => l <- alloc_instance {["length" := length]} ;; ret (VObj l)
  | _ => raise TypeError
  end.
End Edge.

(** ** class VertexOutgoingEdges *)
Module VertexOutgoingEdges.
Definition __init__ (road_graph : loc) : M loc :=
  alloc_voe {| road_graph := road_graph; edges := [] |}.

Definition get_edge (self : loc) (key : value) : M value :=
  o <- load_voe self ;;
  subscript (edges o) key.

Definition set_edge (self : loc) (key value : value) : M unit :=
  o <- load_voe self ;;
  store_voe self {| road_graph := road_graph o;
                    edges := dict_set key value (edges o) |}.

Definition __setitem__ (self : loc) (key val : value) : M unit :=
  o <- load_voe self ;;
  e <- subscript (edges o) key ;;
  (if decide (e = VNone) then
     e' <- Edge.__init__ [] ;;
     o <- load_voe self ;;
     store_voe self {| road_graph := road_graph o;
                       edges := dict_set key e' (edges o) |}
   else ret tt) ;;;
  o <- load_voe self ;;
  e <- subscript (edges o) key ;;
  setattr e "weight" val.

Definition __getitem__ (self : loc) (key : value) : M value :=
  o <- load_voe self ;;
  e <- subscript (edges o) key ;;
  g <- load_graph (road_graph o) ;;
  match _edge_weight_fun g with
  | Some f => call f e
  | None => raise AttributeError
  end.

Definition __delitem__ (self : loc) (key : value) : M unit :=
  o <- load_voe self ;;
  subscript (edges o) key ;;;
  store_voe self {| road_graph := road_graph o;
                    edges := dict_del key (edges o) |}.

Definition __iter__ (self : loc) : M (list value) :=
  o <- load_voe self ;;
  ret (dict_keys (edges o)).

Definition __len__ (self : loc) : M nat :=
  o <- load_voe self ;;
  ret (length (edges o)).
End VertexOutgoingEdges.

(** ** class RoadGraph *)
Module RoadGraph.
(** [lambda e: e.weight if hasattr(e, 'weight') else e.length] *)
Definition lambda_length : pyfun :=
  λ st e, if hasattr st e "weight" then getattr st e "weight"
          else getattr st e "length".

(** [lambda e: e.weight if hasattr(e, 'weight') else e.time] *)
Definition lambda_time : pyfun :=
  λ st e, if hasattr st e "weight" then getattr st e "weight"
          else getattr st e "time".

Definition is_None (a : pyarg) : bool :=
  match a with
  | Val VNone => true
  | _ => false
  end.

Definition eq_str (a : pyarg) (s : string) : bool :=
  match a with
  | Val (VStr s') => bool_decide (s' = s)
  | _ => false
  end.

(** [self._edge_weight_fun = f] *)
Definition set_weight_fun (self : loc) (f : pyarg) : M unit :=
  g <- load_graph self ;;
  store_graph self {| graph := graph g; _edge_weight_fun := Some f |}.

(** [set_edge_weight_function(self, fun=None)]: an omitted argument is
    [None]. *)
Definition set_edge_weight_function (self : loc) (arg : option pyarg)
  : M unit :=
  let fun_ := default (Val VNone) arg in
  if is_None fun_ || eq_str fun_ "length" then
    set_weight_fun self (Fn lambda_length)
  else if eq_str fun_ "time" then
    set_weight_fun self (Fn lambda_time)
  else if callable fun_ then
    set_weight_fun self fun_
  else raise ValueError.

Definition get_edge_weight_function (self : loc) : M pyarg :=
  g <- load_graph self ;;
  match _edge_weight_fun g with
  | Some f => ret f
  | None => raise AttributeError
  end.

Definition __init__ : M loc :=
  self <- alloc_graph {| graph := []; _edge_weight_fun := None |} ;;
  set_edge_weight_function self None ;;;
  ret self.

Definition __setitem__ (self : loc) (key : value) (val : loc) : M unit :=
  g <- load_graph self ;;
  store_graph self {| graph := dict_set key val (graph g);
                      _edge_weight_fun := _edge_weight_fun g |}.

Definition __getitem__ (self : loc) (key : value) : M loc :=
  g <- load_graph self ;;
  subscript (graph g) key.

Definition __delitem__ (self : loc) (key : value) : M unit :=
  g <- load_graph self ;;
  subscript (graph g) key ;;;
  store_graph self {| graph := dict_del key (graph g);
                      _edge_weight_fun := _edge_weight_fun g |}.

Definition __iter__ (self : loc) : M (list value) :=
  g <- load_graph self ;;
  ret (dict_keys (graph g)).

Definition __len__ (self : loc) : M nat :=
  g <- load_graph self ;;
  ret (length (graph g)).

(** [key in self], inherited from [Mapping]: [self[key]] is tried and a
    [KeyError] means no. *)
Definition __contains__ (self : loc) (key : value) : M bool :=
  try_except (__getitem__ self key ;;; ret true) KeyError (ret false).

Definition reverse (self : loc) : M loc :=
  reverse_graph <- __init__ ;;
  g <- load_graph self ;;
  for_each (dict_keys (graph g)) (λ from_edge,
    g <- load_graph self ;;
    v <- subscript (graph g) from_edge ;;
    tos <- VertexOutgoingEdges.__iter__ v ;;
    for_each tos (λ to_edge,
      present <- __contains__ reverse_graph to_edge ;;
      (if present then ret tt
       else
         o <- VertexOutgoingEdges.__init__ reverse_graph ;;
         __setitem__ reverse_graph to_edge o) ;;;
      target <- __getitem__ reverse_graph to_edge ;;
      g <- load_graph self ;;
      v <- subscript (graph g) from_edge ;;
      e <- VertexOutgoingEdges.get_edge v to_edge ;;
      VertexOutgoingEdges.set_edge target from_edge e)) ;;;
  ret reverse_graph.
End RoadGraph.

(** ** Notions the properties are stated with *)

(** The two loop bodies of [reverse], by name. *)
Definition reverse_inner (self reverse_graph : loc) (from_edge to_edge : value) : M unit :=
  present <- RoadGraph.__contains__ reverse_graph to_edge ;;
  (if present then ret tt
   else
     o <- VertexOutgoingEdges.__init__ reverse_graph ;;
     RoadGraph.__setitem__ reverse_graph to_edge o) ;;;
  target <- RoadGraph.__getitem__ reverse_graph to_edge ;;
  g <- load_graph self ;;
  v <- subscript (graph g) from_edge ;;
  e <- VertexOutgoingEdges.get_edge v to_edge ;;
  VertexOutgoingEdges.set_edge target from_edge e.

Definition reverse_outer (self reverse_graph : loc) (from_edge : value) : M unit :=
  g <- load_graph self ;;
  v <- subscript (graph g) from_edge ;;
  tos <- VertexOutgoingEdges.__iter__ v ;;
  for_each tos (reverse_inner self reverse_graph from_edge).

(** What the two named weight functions return for an instance with the
    attributes [a]. *)
Definition resolve (fallback : string) (a : gmap string value) : outcome value :=
  match a !! "weight" with
  | Some w => Ret w
  | None =>
      match a !! fallback with
      | Some x => Ret x
      | None => Raise AttributeError
      end
  end.

(** The store after [self._edge_weight_fun = f] on the graph object [g]. *)
Definition with_weight_fun (self : loc) (g : graph_object) (f : pyarg) (h : heap) : heap :=
  {| instances := instances h;
     voes := voes h;
     graphs := <[self := {| graph := graph g; _edge_weight_fun := Some f |}]> (graphs h) |}.

(** The store after [RoadGraph()]: the new graph is a new object, empty and
    with the default weight function. *)
Definition with_new_graph (h : heap) : heap :=
  {| instances := instances h;
     voes := voes h;
     graphs := <[fresh (dom (graphs h)) :=
                   {| graph := [];
                      _edge_weight_fun := Some (Fn RoadGraph.lambda_length) |}]>
                 (graphs h) |}.

(** The edge stored for the arc from [src] to [dest] of the graph [G], if
    there is one: [G[src].get_edge(dest)]. *)
Definition edge_at (h : heap) (G : loc) (src dest : value) : option value :=
  g ← graphs h !! G;
  v ← dict_get src (graph g);
  o ← voes h !! v;
  dict_get dest (edges o).

(** A graph of the store whose entries are containers of the store. *)
Definition graph_ok (h : heap) (G : loc) : Prop :=
  match graphs h !! G with
  | Some g => Forall (λ kv, is_Some (voes h !! kv.2)) (graph g)
  | None => False
  end.

Global Instance graph_ok_dec h G : Decision (graph_ok h G).
Proof. unfold graph_ok. destruct (graphs h !! G); apply _. Defined.

(** The state of the reversed graph [r] while [reverse] runs on [self] from
    the store [h]: [P src dest] says that the arc from [src] to [dest] has
    been visited, [Q] holds of the source vertices [r] has so far, [R] is the
    dictionary of [r] and [hc] the current store. *)
Record rev_inv (h : heap) (self r : loc) (P : value → value → Prop)
    (Q : value → Prop) (R : dict loc) (hc : heap) : Prop := RevInv {
  inv_instances : instances hc = instances h;
  inv_graphs :
    graphs hc
    = <[r := {| graph := R;
                _edge_weight_fun := Some (Fn RoadGraph.lambda_length) |}]> (graphs h);
  inv_voes : ∀ l o, voes h !! l = Some o → voes hc !! l = Some o;
  inv_new : ∀ k v, dict_get k R = Some v →
            voes h !! v = None ∧
            ∃ E, voes hc !! v = Some {| road_graph := r; edges := E |};
  inv_inj : ∀ k1 k2 v, dict_get k1 R = Some v → dict_get k2 R = Some v → k1 = k2;
  inv_arcs : ∀ a b e, edge_at hc r a b = Some e ↔ P b a ∧ edge_at h self b a = Some e;
  inv_sources : ∀ d v, dict_get d R = Some v → Q d;
  inv_nodup : NoDup (dict_keys R)
}.

(** The source vertices that the visited arcs [P] of [self] give the
    reversed graph. *)
Definition visited_into (h : heap) (self : loc) (P : value → value → Prop)
    (d : value) : Prop :=
  ∃ s, P s d ∧ is_Some (edge_at h self s d).

(** ** A small network

    Vertex [A] has an edge of length 5 to [B], and [B] one of length 3 to
    [C]. The graph is object 1, the containers of [A] and [B] are objects 1
    and 2, and the two edges are instances 1 and 2. *)
Definition example_setup : M loc :=
  e5 <- Edge.__init__ [VNum 5] ;;
  e3 <- Edge.__init__ [VNum 3] ;;
  g <- RoadGraph.__init__ ;;
  a <- VertexOutgoingEdges.__init__ g ;;
  b <- VertexOutgoingEdges.__init__ g ;;
  VertexOutgoingEdges.set_edge a (VStr "B") e5 ;;;
  VertexOutgoingEdges.set_edge b (VStr "C") e3 ;;;
  RoadGraph.__setitem__ g (VStr "A") a ;;;
  RoadGraph.__setitem__ g (VStr "B") b ;;;
  ret g.

Definition example_heap : heap := (example_setup empty_heap).2.

(** The network above with a travel time of 2 on the edge from [A] to [B]
    and the graph in [time] mode. *)
Definition example_time_heap : heap :=
  ((setattr (VObj 1) "time" (VNum 2) ;;;
    RoadGraph.set_edge_weight_function 1 (Some (Val (VStr "time")))) example_heap).2.

(** The store after the small network has been reversed. *)
Definition example_reversed_heap : heap := (RoadGraph.reverse 1 example_heap).2.

(** The store after [e.weight = val] on the instance [l] with the
    attributes [a]. *)
Definition with_weight (l : loc) (a : gmap string value) (val : value) (h : heap) : heap :=
  {| instances := <[l := <["weight" := val]> a]> (instances h);
     voes := voes h;
     graphs := graphs h |}.

(** The store after [self.edges = E] on the container [self] with the parent
    graph [parent]. *)
Definition with_edges (self parent : loc) (E : dict value) (h : heap) : heap :=
  {| instances := instances h;
     voes := <[self := {| road_graph := parent; edges := E |}]> (voes h);
     graphs := graphs h |}.

(** The store after [self.graph = G] on the graph [self] with the weight
    function [f]. *)
Definition with_graph (self : loc) (G : dict loc) (f : option pyarg) (h : heap) : heap :=
  {| instances := instances h;
     voes := voes h;
     graphs := <[self := {| graph := G; _edge_weight_fun := f |}]> (graphs h) |}.

(** Every dictionary of the store has distinct keys, as every Python
    dictionary has. *)
Definition keys_distinct (h : heap) : Prop :=
  map_Forall (λ _ o, NoDup (dict_keys (edges o))) (voes h) ∧
  map_Forall (λ _ g, NoDup (dict_keys (graph g))) (graphs h).

Global Instance keys_distinct_dec h : Decision (keys_distinct h).
Proof. unfold keys_distinct. apply _. Defined.

(** The arcs of the graph [G] with their edges, in iteration order. *)
Definition arcs_of (h : heap) (G : loc) : list (value * value * value) :=
  match graphs h !! G with
  | Some g =>
      graph g ≫= λ kv, match voes h !! kv.2 with
                       | Some o => (λ de, (kv.1, de.1, de.2)) <$> edges o
                       | None => []
                       end
  | None => []
  end.

(** [sum(len(G[v]) for v in G)]: the number of arcs of the graph [G]. *)
Definition edge_count (h : heap) (G : loc) : nat :=
  match graphs h !! G with
  | Some g =>
      sum_list_with (λ kv, match voes h !! kv.2 with
                           | Some o => length (edges o)
                           | None => 0
                           end) (graph g)
  | None => 0
  end.

(** The method [c] keeps the property [Φ] of the store, whatever its
    outcome, and what it returns has [Ψ]. *)
Definition keeps {A} (Φ : heap → Prop) (c : M A) (Ψ : A → Prop) : Prop :=
  ∀ h, Φ h → Φ (c h).2 ∧ ∀ a, (c h).1 = Ret a → Ψ a.

(** * Properties *)

(** ** Dictionaries *)
Section dict_lemmas.
Context {V : Type}.
Implicit Types (d : dict V) (k : value) (v : V).

Lemma dict_get_set_eq d k v : dict_get k (dict_set k v d) = Some v.
Proof.
  induction d as [|[k' v'] d IH]; simpl.
  - by rewrite decide_True.
  - destruct (decide (k' = k)) as [->|Hne]; simpl.
    + by rewrite decide_True.
    + by rewrite decide_False.
Qed.

Lemma dict_get_set_ne d k k' v :
  k ≠ k' → dict_get k' (dict_set k v d) = dict_get k' d.
Proof.
  intros Hne. induction d as [|[k0 v0] d IH]; simpl.
  - by rewrite decide_False.
  - destruct (decide (k0 = k)) as [->|Hne0]; simpl.
    + by rewrite !decide_False.
    + destruct (decide (k0 = k')); [done | apply IH].
Qed.

Lemma dict_get_set d k k' v :
  dict_get k' (dict_set k v d) = if decide (k = k') then Some v else dict_get k' d.
Proof.
  destruct (decide (k = k')) as [->|Hne].
  - apply dict_get_set_eq.
  - by apply dict_get_set_ne.
Qed.

Lemma dict_get_del_eq d k : NoDup (dict_keys d) → dict_get k (dict_del k d) = None.
Proof.
  induction d as [|[k' v'] d IH]; simpl; [done|].
  intros [Hnotin Hnd]%NoDup_cons.
  destruct (decide (k' = k)) as [->|Hne]; simpl.
  - clear IH Hnd. induction d as [|[k0 v0] d IH]; simpl; [done|].
    simpl in Hnotin. apply not_elem_of_cons in Hnotin as [Hne Hnotin].
    rewrite decide_False by done. by apply IH.
  - rewrite decide_False; [|done]. by apply IH.
Qed.

Lemma dict_keys_get d k : k ∈ dict_keys d ↔ is_Some (dict_get k d).
Proof.
  unfold dict_keys. induction d as [|[k' v'] d IH]; simpl.
  - split; [by intros ?%elem_of_nil | by intros [? ?]].
  - rewrite elem_of_cons, IH.
    destruct (decide (k' = k)) as [->|Hne].
    + split; [by eexists | by left].
    + split; [intros [?|?]; [congruence | done] | by right].
Qed.

(** An assignment keeps the keys of a dictionary distinct, so every
    dictionary built from the empty one has distinct keys. *)
Lemma dict_set_NoDup d k v : NoDup (dict_keys d) → NoDup (dict_keys (dict_set k v d)).
Proof.
  unfold dict_keys.
  induction d as [|[k' v'] d IH]; simpl; intros Hnd.
  - apply NoDup_singleton.
  - apply NoDup_cons in Hnd as [Hnotin Hnd].
    destruct (decide (k' = k)) as [->|Hne]; simpl.
    + by apply NoDup_cons.
    + apply NoDup_cons. split; [|by apply IH].
      intros Hin. apply (dict_keys_get (dict_set k v d) k') in Hin.
      rewrite dict_get_set_ne in Hin by done.
      by apply dict_keys_get in Hin.
Qed.
End dict_lemmas.

(** ** The monad *)

Lemma bind_ret {A B} (c : M A) (k : A → M B) h a h' :
  c h = (Ret a, h') → bind c k h = k a h'.
Proof. unfold bind. by intros ->. Qed.

Lemma bind_raise {A B} (c : M A) (k : A → M B) h e h' :
  c h = (Raise e, h') → bind c k h = (Raise e, h').
Proof. unfold bind. by intros ->. Qed.

Lemma load_voe_ret l h o : voes h !! l = Some o → load_voe l h = (Ret o, h).
Proof. unfold load_voe. by intros ->. Qed.

Lemma load_graph_ret l h g : graphs h !! l = Some g → load_graph l h = (Ret g, h).
Proof. unfold load_graph. by intros ->. Qed.

Lemma subscript_ret {V} (d : dict V) k v h :
  dict_get k d = Some v → subscript d k h = (Ret v, h).
Proof. unfold subscript. by intros ->. Qed.

Lemma subscript_raise {V} (d : dict V) k h :
  dict_get k d = None → subscript d k h = (Raise KeyError, h).
Proof. unfold subscript. by intros ->. Qed.

(** One step of a method on a given store. *)
Ltac step :=
  first
    [ erewrite bind_ret by (first [ by apply load_voe_ret
                                  | by apply load_graph_ret
                                  | by apply subscript_ret ])
    | erewrite bind_raise by (by apply subscript_raise) ].

Example example_setup_ret : (example_setup empty_heap).1 = Ret 1%positive.
Proof. reflexivity. Qed.

Example example_graph :
  graph <$> graphs example_heap !! 1%positive
  = Some [(VStr "A", 1%positive); (VStr "B", 2%positive)].
Proof. reflexivity. Qed.

Example example_voe_A :
  voes example_heap !! 1%positive
  = Some {| road_graph := 1%positive; edges := [(VStr "B", VObj 1)] |}.
Proof. reflexivity. Qed.

Example example_voe_B :
  voes example_heap !! 2%positive
  = Some {| road_graph := 1%positive; edges := [(VStr "C", VObj 2)] |}.
Proof. reflexivity. Qed.

Example example_edge_AB :
  instances example_heap !! 1%positive = Some {["length" := VNum 5]}.
Proof. reflexivity. Qed.

(** ** VertexOutgoingEdges *)

(** C7. [set_edge(dest, edge)] stores [edge] under [dest] whatever was there
    before, leaves every other destination as it was, and a [get_edge(dest)]
    right after it returns that very [edge], with no weight function
    involved. *)
Theorem set_edge_get_edge (self : loc) (dest edge : value) (h : heap) (o : voe_object) :
  voes h !! self = Some o →
  ∃ h',
    VertexOutgoingEdges.set_edge self dest edge h = (Ret tt, h') ∧
    voes h' !! self
      = Some {| road_graph := road_graph o;
                edges := dict_set dest edge (edges o) |} ∧
    dict_get dest (dict_set dest edge (edges o)) = Some edge ∧
    (∀ k, k ≠ dest → dict_get k (dict_set dest edge (edges o)) = dict_get k (edges o)) ∧
    VertexOutgoingEdges.get_edge self dest h' = (Ret edge, h').
Proof.
  intros Ho. eexists. split.
  { unfold VertexOutgoingEdges.set_edge. step. reflexivity. }
  split; [simpl; apply lookup_insert_eq|].
  split; [apply dict_get_set_eq|].
  split; [intros k Hk; by apply dict_get_set_ne|].
  unfold VertexOutgoingEdges.get_edge.
  erewrite bind_ret by (apply load_voe_ret; simpl; apply lookup_insert_eq).
  apply subscript_ret. simpl. apply dict_get_set_eq.
Qed.

Lemma set_edge_get_edge_witness :
  ∃ h',
    VertexOutgoingEdges.set_edge 1 (VStr "B") (VNum 7) example_heap = (Ret tt, h') ∧
    voes h' !! 1%positive
      = Some {| road_graph := 1%positive; edges := [(VStr "B", VNum 7)] |} ∧
    dict_get (VStr "B") [(VStr "B", VNum 7)] = Some (VNum 7) ∧
    (∀ k, k ≠ VStr "B" →
          dict_get k [(VStr "B", VNum 7)] = dict_get k [(VStr "B", VObj 1)]) ∧
    VertexOutgoingEdges.get_edge 1 (VStr "B") h' = (Ret (VNum 7), h').
Proof.
  apply (set_edge_get_edge 1 (VStr "B") (VNum 7) example_heap
           {| road_graph := 1%positive; edges := [(VStr "B", VObj 1)] |}).
  reflexivity.
Defined.

(** C3. The weight-style assignment [voe[dest] = val] to a destination that
    has no entry raises [KeyError] and leaves the whole store, and so the
    mapping from destinations to edges, as it was: no entry is created. *)
Theorem setitem_absent_KeyError (self : loc) (dest val : value) (h : heap) (o : voe_object) :
  voes h !! self = Some o →
  dict_get dest (edges o) = None →
  VertexOutgoingEdges.__setitem__ self dest val h = (Raise KeyError, h).
Proof.
  intros Ho Hd. unfold VertexOutgoingEdges.__setitem__. by do 2 step.
Qed.

Lemma setitem_absent_KeyError_witness :
  VertexOutgoingEdges.__setitem__ 1 (VStr "C") (VNum 9) example_heap
  = (Raise KeyError, example_heap).
Proof.
  apply (setitem_absent_KeyError 1 (VStr "C") (VNum 9) example_heap
           {| road_graph := 1%positive; edges := [(VStr "B", VObj 1)] |});
    reflexivity.
Defined.

(** C5. The weighted read [voe[dest]] raises [KeyError] when [dest] has no
    entry, and otherwise returns what the weight function now configured on
    the parent graph returns for the stored edge. *)
Theorem getitem_weighted_read (self : loc) (dest : value) (h : heap) (o : voe_object) :
  voes h !! self = Some o →
  (dict_get dest (edges o) = None →
   VertexOutgoingEdges.__getitem__ self dest h = (Raise KeyError, h)) ∧
  (∀ e g f,
     dict_get dest (edges o) = Some e →
     graphs h !! road_graph o = Some g →
     _edge_weight_fun g = Some (Fn f) →
     VertexOutgoingEdges.__getitem__ self dest h = (f (instances h) e, h)).
Proof.
  intros Ho. unfold VertexOutgoingEdges.__getitem__. split.
  - intros Hd. by do 2 step.
  - intros e g f Hd Hg Hf. do 3 step. by rewrite Hf.
Qed.

Lemma getitem_weighted_read_witness :
  VertexOutgoingEdges.__getitem__ 1 (VStr "C") example_heap
  = (Raise KeyError, example_heap) ∧
  VertexOutgoingEdges.__getitem__ 1 (VStr "B") example_heap
  = (Ret (VNum 5), example_heap).
Proof.
  pose proof (getitem_weighted_read 1 (VStr "C") example_heap
                {| road_graph := 1%positive; edges := [(VStr "B", VObj 1)] |}
                eq_refl) as [Habsent _].
  pose proof (getitem_weighted_read 1 (VStr "B") example_heap
                {| road_graph := 1%positive; edges := [(VStr "B", VObj 1)] |}
                eq_refl) as [_ Hpresent].
  split.
  - apply Habsent. reflexivity.
  - apply (Hpresent (VObj 1)
             {| graph := [(VStr "A", 1%positive); (VStr "B", 2%positive)];
                _edge_weight_fun := Some (Fn RoadGraph.lambda_length) |}
             RoadGraph.lambda_length); reflexivity.
Defined.

(** C9. When [dest] holds a reference to an instance, the weight-style
    assignment [voe[dest] = val] succeeds and changes one thing only: the
    [weight] attribute of that instance. The containers (their entries, the
    reference stored under [dest] included, and their parent graphs) and the
    graphs are as before, every other instance is as before, and every other
    attribute of the instance is as before. *)
Theorem setitem_frame (self : loc) (dest val : value) (h : heap) (o : voe_object)
    (l : loc) (a : gmap string value) :
  voes h !! self = Some o →
  dict_get dest (edges o) = Some (VObj l) →
  instances h !! l = Some a →
  ∃ h',
    VertexOutgoingEdges.__setitem__ self dest val h = (Ret tt, h') ∧
    voes h' = voes h ∧
    graphs h' = graphs h ∧
    (∃ a', instances h' !! l = Some a' ∧
           a' !! "weight" = Some val ∧
           ∀ name, name ≠ "weight" → a' !! name = a !! name) ∧
    (∀ l', l' ≠ l → instances h' !! l' = instances h !! l').
Proof.
  intros Ho Hd Ha. eexists. split.
  { unfold VertexOutgoingEdges.__setitem__. do 2 step.
    rewrite decide_False by done. unfold bind at 1, ret at 1.
    do 2 step. unfold setattr. rewrite Ha. reflexivity. }
  simpl. split; [done|]. split; [done|]. split.
  - eexists. split; [apply lookup_insert_eq|]. split.
    + apply lookup_insert_eq.
    + intros name Hname. by apply lookup_insert_ne.
  - intros l' Hl'. by apply lookup_insert_ne.
Qed.

Lemma setitem_frame_witness :
  ∃ h',
    VertexOutgoingEdges.__setitem__ 1 (VStr "B") (VNum 9) example_heap = (Ret tt, h') ∧
    voes h' = voes example_heap ∧
    graphs h' = graphs example_heap ∧
    (∃ a', instances h' !! 1%positive = Some a' ∧
           a' !! "weight" = Some (VNum 9) ∧
           ∀ name, name ≠ "weight" →
                   a' !! name = ({["length" := VNum 5]} : gmap string value) !! name) ∧
    (∀ l', l' ≠ 1%positive → instances h' !! l' = instances example_heap !! l').
Proof.
  apply (setitem_frame 1 (VStr "B") (VNum 9) example_heap
           {| road_graph := 1%positive; edges := [(VStr "B", VObj 1)] |}
           1 {["length" := VNum 5]}); reflexivity.
Defined.

(** ** The weight function *)

Lemma lambda_length_resolve st l a :
  st !! l = Some a → RoadGraph.lambda_length st (VObj l) = resolve "length" a.
Proof.
  intros Hl. unfold RoadGraph.lambda_length, hasattr, getattr, resolve; simpl.
  rewrite Hl; simpl. destruct (a !! "weight") as [w|] eqn:Hw.
  - rewrite bool_decide_true by eauto. done.
  - rewrite bool_decide_false by (by intros [? ?]). done.
Qed.

Lemma lambda_time_resolve st l a :
  st !! l = Some a → RoadGraph.lambda_time st (VObj l) = resolve "time" a.
Proof.
  intros Hl. unfold RoadGraph.lambda_time, hasattr, getattr, resolve; simpl.
  rewrite Hl; simpl. destruct (a !! "weight") as [w|] eqn:Hw.
  - rewrite bool_decide_true by eauto. done.
  - rewrite bool_decide_false by (by intros [? ?]). done.
Qed.

Lemma set_weight_fun_ret self g f h :
  graphs h !! self = Some g →
  RoadGraph.set_weight_fun self f h = (Ret tt, with_weight_fun self g f h).
Proof. intros Hg. unfold RoadGraph.set_weight_fun. by step. Qed.

Lemma fresh_graph h : graphs h !! fresh (dom (graphs h)) = None.
Proof. apply (not_elem_of_dom (D := gset loc)). apply is_fresh. Qed.

Lemma fresh_voe h : voes h !! fresh (dom (voes h)) = None.
Proof. apply (not_elem_of_dom (D := gset loc)). apply is_fresh. Qed.

Lemma init_ret h :
  RoadGraph.__init__ h = (Ret (fresh (dom (graphs h))), with_new_graph h).
Proof.
  unfold RoadGraph.__init__.
  erewrite bind_ret by reflexivity.
  erewrite bind_ret; [reflexivity|].
  unfold RoadGraph.set_edge_weight_function; simpl.
  erewrite set_weight_fun_ret by (simpl; apply lookup_insert_eq).
  unfold with_weight_fun, with_new_graph; simpl.
  by rewrite insert_insert_eq.
Qed.

Example example_time_read :
  VertexOutgoingEdges.__getitem__ 1 (VStr "B") example_time_heap
  = (Ret (VNum 2), example_time_heap).
Proof. reflexivity. Qed.

(** C2. With the parent graph set to ["length"] or to ["time"], the weighted
    read of a stored edge returns the edge's [weight] when it has one; when it
    has none, the read resolves to the edge's [length] under ["length"] and to
    its [time] under ["time"] (and fails with [AttributeError] when the edge
    lacks that attribute as well). *)
Theorem getitem_length_time_modes (self : loc) (dest : value) (h : heap)
    (o : voe_object) (g : graph_object) (l : loc) (a : gmap string value) :
  voes h !! self = Some o →
  dict_get dest (edges o) = Some (VObj l) →
  instances h !! l = Some a →
  graphs h !! road_graph o = Some g →
  ∃ h_length h_time,
    RoadGraph.set_edge_weight_function (road_graph o) (Some (Val (VStr "length"))) h
    = (Ret tt, h_length) ∧
    RoadGraph.set_edge_weight_function (road_graph o) (Some (Val (VStr "time"))) h
    = (Ret tt, h_time) ∧
    (∀ w, a !! "weight" = Some w →
          VertexOutgoingEdges.__getitem__ self dest h_length = (Ret w, h_length) ∧
          VertexOutgoingEdges.__getitem__ self dest h_time = (Ret w, h_time)) ∧
    (a !! "weight" = None →
     VertexOutgoingEdges.__getitem__ self dest h_length
     = (match a !! "length" with
        | Some x => Ret x
        | None => Raise AttributeError
        end, h_length) ∧
     VertexOutgoingEdges.__getitem__ self dest h_time
     = (match a !! "time" with
        | Some t => Ret t
        | None => Raise AttributeError
        end, h_time)).
Proof.
  intros Ho Hd Ha Hg.
  exists (with_weight_fun (road_graph o) g (Fn RoadGraph.lambda_length) h),
         (with_weight_fun (road_graph o) g (Fn RoadGraph.lambda_time) h).
  split; [by apply set_weight_fun_ret|].
  split; [by apply set_weight_fun_ret|].
  assert (∀ f, VertexOutgoingEdges.__getitem__ self dest
                 (with_weight_fun (road_graph o) g (Fn f) h)
               = (f (instances h) (VObj l),
                  with_weight_fun (road_graph o) g (Fn f) h)) as Hread.
  { intros f. unfold VertexOutgoingEdges.__getitem__. do 2 step.
    erewrite bind_ret by (apply load_graph_ret; simpl; apply lookup_insert_eq).
    reflexivity. }
  rewrite !Hread.
  rewrite (lambda_length_resolve _ _ _ Ha), (lambda_time_resolve _ _ _ Ha).
  unfold resolve. split.
  - intros w ->. done.
  - intros ->. done.
Qed.

Lemma getitem_length_time_modes_witness :
  ∃ h_length h_time,
    RoadGraph.set_edge_weight_function 1 (Some (Val (VStr "length"))) example_time_heap
    = (Ret tt, h_length) ∧
    RoadGraph.set_edge_weight_function 1 (Some (Val (VStr "time"))) example_time_heap
    = (Ret tt, h_time) ∧
    (∀ w, ({["time" := VNum 2; "length" := VNum 5]} : gmap string value) !! "weight"
          = Some w →
          VertexOutgoingEdges.__getitem__ 1 (VStr "B") h_length = (Ret w, h_length) ∧
          VertexOutgoingEdges.__getitem__ 1 (VStr "B") h_time = (Ret w, h_time)) ∧
    (({["time" := VNum 2; "length" := VNum 5]} : gmap string value) !! "weight" = None →
     VertexOutgoingEdges.__getitem__ 1 (VStr "B") h_length = (Ret (VNum 5), h_length) ∧
     VertexOutgoingEdges.__getitem__ 1 (VStr "B") h_time = (Ret (VNum 2), h_time)).
Proof.
  exact (getitem_length_time_modes 1 (VStr "B") example_time_heap
           {| road_graph := 1; edges := [(VStr "B", VObj 1)] |}
           {| graph := [(VStr "A", 1%positive); (VStr "B", 2%positive)];
              _edge_weight_fun := Some (Fn RoadGraph.lambda_time) |}
           1 {["time" := VNum 2; "length" := VNum 5]}
           eq_refl eq_refl eq_refl eq_refl).
Defined.

(** C4, as the code has it. An argument that is not [None], not the string
    ["length"], not the string ["time"] and not callable makes
    [set_edge_weight_function] raise [ValueError] at once; the store is as
    before, so the weight function configured earlier stays installed and a
    later weighted read returns what it returned before the call. *)
Theorem set_edge_weight_function_rejects (self : loc) (arg : pyarg) (h : heap) :
  RoadGraph.is_None arg = false →
  RoadGraph.eq_str arg "length" = false →
  RoadGraph.eq_str arg "time" = false →
  callable arg = false →
  RoadGraph.set_edge_weight_function self (Some arg) h = (Raise ValueError, h) ∧
  ∀ voe dest,
    (try_except (RoadGraph.set_edge_weight_function self (Some arg))
       ValueError (ret tt) ;;;
     VertexOutgoingEdges.__getitem__ voe dest) h
    = VertexOutgoingEdges.__getitem__ voe dest h.
Proof.
  intros Hnone Hlen Htime Hcall.
  assert (RoadGraph.set_edge_weight_function self (Some arg) h
          = (Raise ValueError, h)) as Hraise.
  { unfold RoadGraph.set_edge_weight_function. simpl.
    by rewrite Hnone, Hlen, Htime, Hcall. }
  split; [done|]. intros voe dest.
  erewrite bind_ret; [reflexivity|].
  unfold try_except. rewrite Hraise. by rewrite decide_True.
Qed.

Lemma set_edge_weight_function_rejects_witness :
  RoadGraph.set_edge_weight_function 1 (Some (Val (VStr "distance"))) example_time_heap
  = (Raise ValueError, example_time_heap) ∧
  ∀ voe dest,
    (try_except (RoadGraph.set_edge_weight_function 1 (Some (Val (VStr "distance"))))
       ValueError (ret tt) ;;;
     VertexOutgoingEdges.__getitem__ voe dest) example_time_heap
    = VertexOutgoingEdges.__getitem__ voe dest example_time_heap.
Proof.
  exact (set_edge_weight_function_rejects 1 (Val (VStr "distance")) example_time_heap
           eq_refl eq_refl eq_refl eq_refl).
Defined.

(** C4, as the specification states it, fails for [None]: it is neither of
    the two strings nor callable, yet the call returns normally and replaces
    the ["time"] function by the default one, so the weighted read of the edge
    from [A] to [B] changes from its time, 2, to its length, 5. *)
Lemma set_edge_weight_function_None_accepted :
  RoadGraph.eq_str (Val VNone) "length" = false ∧
  RoadGraph.eq_str (Val VNone) "time" = false ∧
  callable (Val VNone) = false ∧
  VertexOutgoingEdges.__getitem__ 1 (VStr "B") example_time_heap
  = (Ret (VNum 2), example_time_heap) ∧
  ∃ h',
    RoadGraph.set_edge_weight_function 1 (Some (Val VNone)) example_time_heap
    = (Ret tt, h') ∧
    VertexOutgoingEdges.__getitem__ 1 (VStr "B") h' = (Ret (VNum 5), h').
Proof.
  repeat split. eexists. split; reflexivity.
Qed.

(** C10. [set_edge_weight_function()] and [set_edge_weight_function(None)]
    raise nothing: they install the function that returns an edge's [weight]
    if it has one and its [length] otherwise, which is also the function a
    newly constructed [RoadGraph] has. *)
Theorem set_edge_weight_function_default (self : loc) (h : heap) (g : graph_object) :
  graphs h !! self = Some g →
  RoadGraph.set_edge_weight_function self None h
  = (Ret tt, with_weight_fun self g (Fn RoadGraph.lambda_length) h) ∧
  RoadGraph.set_edge_weight_function self (Some (Val VNone)) h
  = (Ret tt, with_weight_fun self g (Fn RoadGraph.lambda_length) h) ∧
  (∀ st l a, st !! l = Some a →
             RoadGraph.lambda_length st (VObj l) = resolve "length" a) ∧
  ∃ new h',
    RoadGraph.__init__ h = (Ret new, h') ∧
    graphs h !! new = None ∧
    graphs h' !! new
    = Some {| graph := []; _edge_weight_fun := Some (Fn RoadGraph.lambda_length) |}.
Proof.
  intros Hg.
  split; [by apply set_weight_fun_ret|].
  split; [by apply set_weight_fun_ret|].
  split; [apply lambda_length_resolve|].
  eexists _, _. split; [apply init_ret|]. split.
  - apply fresh_graph.
  - simpl. apply lookup_insert_eq.
Qed.

Lemma set_edge_weight_function_default_witness :
  RoadGraph.set_edge_weight_function 1 None example_time_heap
  = (Ret tt, with_weight_fun 1
               {| graph := [(VStr "A", 1%positive); (VStr "B", 2%positive)];
                  _edge_weight_fun := Some (Fn RoadGraph.lambda_time) |}
               (Fn RoadGraph.lambda_length) example_time_heap) ∧
  RoadGraph.set_edge_weight_function 1 (Some (Val VNone)) example_time_heap
  = (Ret tt, with_weight_fun 1
               {| graph := [(VStr "A", 1%positive); (VStr "B", 2%positive)];
                  _edge_weight_fun := Some (Fn RoadGraph.lambda_time) |}
               (Fn RoadGraph.lambda_length) example_time_heap) ∧
  (∀ st l a, st !! l = Some a →
             RoadGraph.lambda_length st (VObj l) = resolve "length" a) ∧
  ∃ new h',
    RoadGraph.__init__ example_time_heap = (Ret new, h') ∧
    graphs example_time_heap !! new = None ∧
    graphs h' !! new
    = Some {| graph := []; _edge_weight_fun := Some (Fn RoadGraph.lambda_length) |}.
Proof.
  exact (set_edge_weight_function_default 1 example_time_heap
           {| graph := [(VStr "A", 1%positive); (VStr "B", 2%positive)];
              _edge_weight_fun := Some (Fn RoadGraph.lambda_time) |}
           eq_refl).
Defined.

(** ** Reversal *)

Lemma reverse_unfold self :
  RoadGraph.reverse self
  = (reverse_graph <- RoadGraph.__init__ ;;
     g <- load_graph self ;;
     for_each (dict_keys (graph g)) (reverse_outer self reverse_graph) ;;;
     ret reverse_graph).
Proof. reflexivity. Qed.

Lemma dict_get_elem_of {V} (d : dict V) k v : dict_get k d = Some v → (k, v) ∈ d.
Proof.
  induction d as [|[k' v'] d IH]; simpl; [done|].
  destruct (decide (k' = k)) as [->|Hne].
  - intros [= ->]. by left.
  - intros Hk. right. by apply IH.
Qed.

Lemma elem_of_dict_get {V} (d : dict V) k v :
  NoDup (dict_keys d) → (k, v) ∈ d → dict_get k d = Some v.
Proof.
  unfold dict_keys. induction d as [|[k' v'] d IH]; simpl.
  - by intros _ ?%elem_of_nil.
  - intros [Hnotin Hnd]%NoDup_cons [[= -> ->]|Hin]%elem_of_cons.
    + by rewrite decide_True.
    + rewrite decide_False; [by apply IH|].
      intros ->. apply Hnotin. apply list_elem_of_fmap. by exists (k, v).
Qed.

Lemma graph_ok_entries h G :
  graph_ok h G →
  ∃ g, graphs h !! G = Some g ∧
       ∀ k v, dict_get k (graph g) = Some v → is_Some (voes h !! v).
Proof.
  unfold graph_ok. destruct (graphs h !! G) as [g|]; [|done].
  intros Hall. exists g. split; [done|]. intros k v Hk.
  apply dict_get_elem_of in Hk.
  by apply (proj1 (Forall_forall _ _) Hall (k, v)).
Qed.

Lemma edge_at_Some h G s d e :
  edge_at h G s d = Some e ↔
  ∃ g v o, graphs h !! G = Some g ∧ dict_get s (graph g) = Some v ∧
           voes h !! v = Some o ∧ dict_get d (edges o) = Some e.
Proof.
  unfold edge_at. split.
  - intros H.
    destruct (graphs h !! G) as [g|] eqn:Hg; simpl in H; [|done].
    destruct (dict_get s (graph g)) as [v|] eqn:Hv; simpl in H; [|done].
    destruct (voes h !! v) as [o|] eqn:Ho; simpl in H; [|done].
    by exists g, v, o.
  - intros (g & v & o & -> & Hv & Ho & He); simpl.
    rewrite Hv; simpl. by rewrite Ho.
Qed.

Lemma for_each_inv {A} (I : list A → heap → Prop) (body : A → M unit) (xs : list A) :
  (∀ done x hc, x ∈ xs → I done hc →
                ∃ hc', body x hc = (Ret tt, hc') ∧ I (done ++ [x]) hc') →
  ∀ hc, I [] hc → ∃ hc', for_each xs body hc = (Ret tt, hc') ∧ I xs hc'.
Proof.
  intros Hbody.
  assert (∀ rest done hc,
            (∀ x, x ∈ rest → x ∈ xs) → I done hc →
            ∃ hc', for_each rest body hc = (Ret tt, hc') ∧ I (done ++ rest) hc')
    as Hgen.
  { induction rest as [|x rest IH]; intros done hc Hsub HI; simpl.
    - exists hc. by rewrite app_nil_r.
    - destruct (Hbody done x hc) as (hc1 & Hrun & HI1); [apply Hsub; by left | done |].
      destruct (IH (done ++ [x]) hc1) as (hc2 & Hrun2 & HI2);
        [intros y Hy; apply Hsub; by right | done |].
      exists hc2. split.
      + by erewrite bind_ret by exact Hrun.
      + by rewrite <- app_assoc in HI2. }
  intros hc HI. by apply (Hgen xs [] hc).
Qed.

Section reverse_proof.
Variables (h : heap) (self r : loc) (g : graph_object).
Hypothesis Hself : graphs h !! self = Some g.
Hypothesis Hok : ∀ k v, dict_get k (graph g) = Some v → is_Some (voes h !! v).
Hypothesis Hr : graphs h !! r = None.

Lemma rev_inv_weaken (P P' : value → value → Prop) (Q Q' : value → Prop) R hc :
  (∀ f t, is_Some (edge_at h self f t) → (P f t ↔ P' f t)) →
  (∀ d, Q d → Q' d) →
  rev_inv h self r P Q R hc → rev_inv h self r P' Q' R hc.
Proof.
  intros HP HQ [H1 H2 H3 H4 H5 H6 H7 H8].
  split; try done.
  - intros a b e. rewrite H6. split; intros [Hp He]; (split; [|done]).
    + apply HP; [by rewrite He | done].
    + apply HP; [by rewrite He | done].
  - intros d v Hd. apply HQ. by eapply H7.
Qed.

Lemma rev_inv_self P Q R hc :
  rev_inv h self r P Q R hc → graphs hc !! self = Some g.
Proof.
  intros Hinv. rewrite (inv_graphs _ _ _ _ _ _ _ Hinv).
  rewrite lookup_insert_ne; [done|]. intros ->. congruence.
Qed.

Lemma rev_inv_r P Q R hc :
  rev_inv h self r P Q R hc →
  graphs hc !! r
  = Some {| graph := R; _edge_weight_fun := Some (Fn RoadGraph.lambda_length) |}.
Proof.
  intros Hinv. rewrite (inv_graphs _ _ _ _ _ _ _ Hinv). apply lookup_insert_eq.
Qed.

Lemma graph_getitem_ret G (o : graph_object) key v hc :
  graphs hc !! G = Some o → dict_get key (graph o) = Some v →
  RoadGraph.__getitem__ G key hc = (Ret v, hc).
Proof. intros HG Hk. unfold RoadGraph.__getitem__. step. by apply subscript_ret. Qed.

Lemma graph_getitem_raise G (o : graph_object) key hc :
  graphs hc !! G = Some o → dict_get key (graph o) = None →
  RoadGraph.__getitem__ G key hc = (Raise KeyError, hc).
Proof. intros HG Hk. unfold RoadGraph.__getitem__. step. by apply subscript_raise. Qed.

Lemma contains_ret G (o : graph_object) key hc :
  graphs hc !! G = Some o →
  RoadGraph.__contains__ G key hc
  = (Ret (bool_decide (is_Some (dict_get key (graph o)))), hc).
Proof.
  intros HG. unfold RoadGraph.__contains__, try_except.
  destruct (dict_get key (graph o)) as [v|] eqn:Hk.
  - erewrite bind_ret by (by eapply graph_getitem_ret).
    rewrite bool_decide_true by eauto. done.
  - erewrite bind_raise by (by eapply graph_getitem_raise).
    rewrite bool_decide_false by (by intros [? ?]). done.
Qed.

(** The first half of the inner loop body: after it, [to] is a source
    vertex of the reversed graph. *)
Lemma reverse_ensure P Q R hc to :
  rev_inv h self r P Q R hc →
  ∃ R' hm,
    (if bool_decide (is_Some (dict_get to R)) then ret tt
     else
       o <- VertexOutgoingEdges.__init__ r ;;
       RoadGraph.__setitem__ r to o) hc = (Ret tt, hm) ∧
    is_Some (dict_get to R') ∧
    rev_inv h self r P (λ d, d = to ∨ Q d) R' hm.
Proof.
  intros Hinv. destruct (dict_get to R) as [v|] eqn:Hto.
  - rewrite bool_decide_true by eauto. exists R, hc.
    split; [done|]. split; [by rewrite Hto|].
    eapply rev_inv_weaken; [| |exact Hinv]; [done | by right].
  - rewrite bool_decide_false by (by intros [? ?]).
    pose proof (fresh_voe hc) as Hfresh.
    set (nv := fresh (dom (voes hc))) in *.
    pose proof Hinv as [H1 H2 H3 H4 H5 H6 H7 H8].
    assert (∀ k v, dict_get k R = Some v → v ≠ nv) as Hnv.
    { intros k v Hk ->. destruct (H4 _ _ Hk) as [_ [E HE]]. congruence. }
    exists (dict_set to nv R),
      {| instances := instances hc;
         voes := <[nv := {| road_graph := r; edges := [] |}]> (voes hc);
         graphs := <[r := {| graph := dict_set to nv R;
                             _edge_weight_fun := Some (Fn RoadGraph.lambda_length) |}]>
                     (graphs hc) |}.
    split.
    { unfold VertexOutgoingEdges.__init__.
      erewrite bind_ret by reflexivity.
      unfold RoadGraph.__setitem__.
      erewrite bind_ret
        by (apply load_graph_ret; simpl; by apply (rev_inv_r P Q R)).
      reflexivity. }
    split; [by rewrite dict_get_set_eq|].
    split; simpl.
    + done.
    + rewrite H2. by rewrite insert_insert_eq.
    + intros l o Hl. rewrite lookup_insert_ne; [by apply H3|].
      intros <-. apply H3 in Hl. congruence.
    + intros k v. rewrite dict_get_set. destruct (decide (to = k)) as [<-|Hne].
      * intros [= <-]. split.
        -- destruct (voes h !! nv) as [o|] eqn:Ho; [|done].
           apply H3 in Ho. congruence.
        -- eexists. apply lookup_insert_eq.
      * intros Hk. destruct (H4 _ _ Hk) as [Hh HE]. split; [done|].
        rewrite lookup_insert_ne; [done|]. intros <-. by eapply Hnv.
    + intros k1 k2 v. rewrite !dict_get_set.
      destruct (decide (to = k1)) as [<-|Hne1], (decide (to = k2)) as [<-|Hne2];
        try done.
      * intros [= <-] Hk. by destruct (Hnv _ _ Hk).
      * intros Hk [= <-]. by destruct (Hnv _ _ Hk).
      * apply H5.
    + intros a b e. rewrite <- H6. rewrite !edge_at_Some. split.
      * intros (g' & v & o & Hg' & Hv & Ho & He). simpl in *.
        rewrite H2, insert_insert_eq, lookup_insert_eq in Hg'.
        injection Hg' as <-. simpl in Hv. rewrite dict_get_set in Hv.
        destruct (decide (to = a)) as [<-|Hne].
        -- injection Hv as <-. rewrite lookup_insert_eq in Ho.
           injection Ho as <-. done.
        -- rewrite lookup_insert_ne in Ho by (intros <-; by eapply Hnv).
           eexists _, v, o. split; [by apply (rev_inv_r P Q R)|]. done.
      * intros (g' & v & o & Hg' & Hv & Ho & He).
        rewrite (rev_inv_r P Q R hc Hinv) in Hg'. injection Hg' as <-.
        simpl in Hv. eexists _, v, o. simpl.
        split; [rewrite H2, insert_insert_eq; apply lookup_insert_eq|].
        simpl. split; [|split; [|done]].
        -- rewrite dict_get_set_ne; [done|]. intros <-. congruence.
        -- rewrite lookup_insert_ne; [done|]. intros <-. by eapply Hnv.
    + intros d v. rewrite dict_get_set. destruct (decide (to = d)) as [<-|Hne].
      * by left.
      * intros Hd. right. by eapply H7.
    + by apply dict_set_NoDup.
Qed.
(** The second half of the inner loop body: the edge of the arc from
    [from] to [to] is stored under [from] in the container of [to]. *)
Lemma reverse_store P Q R hm from to e :
  rev_inv h self r P Q R hm →
  is_Some (dict_get to R) →
  edge_at h self from to = Some e →
  ∃ hc',
    (target <- RoadGraph.__getitem__ r to ;;
     g <- load_graph self ;;
     v <- subscript (graph g) from ;;
     e <- VertexOutgoingEdges.get_edge v to ;;
     VertexOutgoingEdges.set_edge target from e) hm = (Ret tt, hc') ∧
    rev_inv h self r (λ f t, P f t ∨ (f = from ∧ t = to)) Q R hc'.
Proof.
  intros Hinv [v Hto] He.
  pose proof Hinv as [H1 H2 H3 H4 H5 H6 H7 H8].
  destruct (H4 _ _ Hto) as [Hvh [E HE]].
  pose proof He as (g' & vf & o_f & Hg' & Hvf & Hof & Hedge)%edge_at_Some.
  rewrite Hself in Hg'. injection Hg' as <-.
  exists {| instances := instances hm;
            voes := <[v := {| road_graph := r; edges := dict_set from e E |}]> (voes hm);
            graphs := graphs hm |}.
  split.
  { erewrite bind_ret
      by (eapply graph_getitem_ret; [by apply (rev_inv_r P Q R)|done]).
    erewrite bind_ret by (apply load_graph_ret; by apply (rev_inv_self P Q R)).
    erewrite bind_ret by (by apply subscript_ret).
    erewrite bind_ret.
    2:{ unfold VertexOutgoingEdges.get_edge.
        erewrite bind_ret by (apply load_voe_ret; by apply H3).
        by apply subscript_ret. }
    unfold VertexOutgoingEdges.set_edge.
    erewrite bind_ret by (by apply load_voe_ret).
    reflexivity. }
  split; simpl; try done.
  - intros l o Hl. rewrite lookup_insert_ne; [by apply H3|].
    intros <-. congruence.
  - intros k v' Hk. destruct (H4 _ _ Hk) as [Hh [E' HE']]. split; [done|].
    destruct (decide (v = v')) as [<-|Hne].
    + eexists. apply lookup_insert_eq.
    + exists E'. by rewrite lookup_insert_ne.
  - intros a b e'. split.
    + intros (g' & va & oa & Hg' & Hva & Hoa & Hea)%edge_at_Some. simpl in *.
      rewrite (rev_inv_r P Q R hm Hinv) in Hg'. injection Hg' as <-.
      simpl in Hva. destruct (decide (v = va)) as [<-|Hne].
      * assert (a = to) as -> by (by eapply H5).
        rewrite lookup_insert_eq in Hoa. injection Hoa as <-. simpl in Hea.
        rewrite dict_get_set in Hea. destruct (decide (from = b)) as [<-|Hneb].
        -- injection Hea as <-. split; [by right | done].
        -- assert (edge_at hm r to b = Some e') as Hold.
           { apply edge_at_Some. eexists _, v, _.
             split; [by apply (rev_inv_r P Q R)|]. done. }
           apply H6 in Hold as [HP Hold]. split; [by left | done].
      * rewrite lookup_insert_ne in Hoa by done.
        assert (edge_at hm r a b = Some e') as Hold.
        { apply edge_at_Some. eexists _, va, oa.
          split; [by apply (rev_inv_r P Q R)|]. done. }
        apply H6 in Hold as [HP Hold]. split; [by left | done].
    + intros [HP' He'].
      destruct (decide (b = from ∧ a = to)) as [[-> ->]|Hnot].
      * assert (e' = e) as -> by congruence.
        apply edge_at_Some. eexists _, v, _. simpl.
        split; [by apply (rev_inv_r P Q R)|]. simpl.
        split; [done|]. split; [apply lookup_insert_eq|]. simpl.
        apply dict_get_set_eq.
      * assert (P b a) as HP by (destruct HP' as [?|?]; done).
        assert (edge_at hm r a b = Some e') as Hold by (by apply H6).
        apply edge_at_Some in Hold as (g' & va & oa & Hg' & Hva & Hoa & Hea).
        rewrite (rev_inv_r P Q R hm Hinv) in Hg'. injection Hg' as <-.
        simpl in Hva. apply edge_at_Some. simpl.
        destruct (decide (v = va)) as [<-|Hne].
        -- assert (a = to) as -> by (by eapply H5).
           rewrite HE in Hoa. injection Hoa as <-. simpl in Hea.
           eexists _, v, _. split; [by apply (rev_inv_r P Q R)|]. simpl.
           split; [done|]. split; [apply lookup_insert_eq|]. simpl.
           rewrite dict_get_set_ne; [done|]. intros <-. by apply Hnot.
        -- eexists _, va, oa. split; [by apply (rev_inv_r P Q R)|]. simpl.
           split; [done|]. split; [|done]. by rewrite lookup_insert_ne.
Qed.

(** One round of the inner loop. *)
Lemma reverse_inner_step P R hc from to e :
  rev_inv h self r P (visited_into h self P) R hc →
  edge_at h self from to = Some e →
  ∃ R' hc',
    reverse_inner self r from to hc = (Ret tt, hc') ∧
    rev_inv h self r (λ f t, P f t ∨ (f = from ∧ t = to))
      (visited_into h self (λ f t, P f t ∨ (f = from ∧ t = to))) R' hc'.
Proof.
  intros Hinv He.
  destruct (reverse_ensure P _ R hc to Hinv) as (R' & hm & Hrun1 & Hto & Hinv1).
  destruct (reverse_store P _ R' hm from to e Hinv1 Hto He) as (hc' & Hrun2 & Hinv2).
  exists R', hc'. split.
  - unfold reverse_inner.
    erewrite bind_ret
      by (apply contains_ret; by apply (rev_inv_r P (visited_into h self P) R)).
    simpl. erewrite bind_ret by exact Hrun1. exact Hrun2.
  - eapply rev_inv_weaken; [| |exact Hinv2]; [done|].
    intros d [->|(s & HP & Hs)].
    + exists from. split; [by right | by rewrite He].
    + exists s. split; [by left | done].
Qed.
Lemma rev_inv_visited (P P' : value → value → Prop) R hc :
  (∀ f t, is_Some (edge_at h self f t) → (P f t ↔ P' f t)) →
  rev_inv h self r P (visited_into h self P) R hc →
  rev_inv h self r P' (visited_into h self P') R hc.
Proof.
  intros HP. apply rev_inv_weaken; [done|].
  intros d (s & Hs & Hedge). exists s. split; [by apply HP | done].
Qed.

(** One round of the outer loop: every arc that leaves [from] is visited. *)
Lemma reverse_outer_step (done : list value) hc from :
  from ∈ dict_keys (graph g) →
  (∃ R, rev_inv h self r (λ f _, f ∈ done) (visited_into h self (λ f _, f ∈ done)) R hc) →
  ∃ hc',
    reverse_outer self r from hc = (Ret tt, hc') ∧
    ∃ R', rev_inv h self r (λ f _, f ∈ done ++ [from])
            (visited_into h self (λ f _, f ∈ done ++ [from])) R' hc'.
Proof.
  intros [v Hv]%dict_keys_get [R Hinv].
  destruct (Hok _ _ Hv) as [o Ho].
  set (Pin := λ (dt : list value) (f t : value), f ∈ done ∨ (f = from ∧ t ∈ dt)).
  destruct (for_each_inv
              (λ dt hc', ∃ R', rev_inv h self r (Pin dt) (visited_into h self (Pin dt)) R' hc')
              (reverse_inner self r from) (dict_keys (edges o)))
    with (hc := hc) as (hc' & Hrun & R' & Hinv').
  - intros dt x hx Hx [Rx Hinvx].
    apply dict_keys_get in Hx as [e He].
    assert (edge_at h self from x = Some e) as Hedge.
    { apply edge_at_Some. by exists g, v, o. }
    destruct (reverse_inner_step _ Rx hx from x e Hinvx Hedge) as (R1 & h1 & Hrun1 & Hinv1).
    exists h1. split; [done|]. exists R1.
    eapply rev_inv_visited; [|exact Hinv1].
    intros f t _. unfold Pin. rewrite elem_of_app, list_elem_of_singleton.
    tauto.
  - exists R. eapply rev_inv_visited; [|exact Hinv].
    intros f t _. unfold Pin. split; [by left|].
    intros [?|[_ ?%elem_of_nil]]; done.
  - exists hc'. split.
    + unfold reverse_outer.
      erewrite bind_ret by (apply load_graph_ret; by eapply rev_inv_self).
      erewrite bind_ret by (by apply subscript_ret).
      erewrite bind_ret; [exact Hrun|].
      unfold VertexOutgoingEdges.__iter__.
      erewrite bind_ret by (apply load_voe_ret; by eapply inv_voes).
      reflexivity.
    + exists R'. eapply rev_inv_visited; [|exact Hinv'].
      intros f t [e He]. unfold Pin. rewrite elem_of_app, list_elem_of_singleton.
      split; [tauto|]. intros [?| ->]; [by left|]. right. split; [done|].
      apply edge_at_Some in He as (g' & v' & o' & Hg' & Hv' & Ho' & He).
      assert (g' = g) as -> by congruence.
      assert (v' = v) as -> by congruence.
      assert (o' = o) as -> by congruence.
      apply dict_keys_get. by rewrite He.
Qed.

(** The outer loop, from the store that holds the new, empty graph [r]. *)
Lemma reverse_loops hc :
  rev_inv h self r (λ f _, f ∈ @nil value)
    (visited_into h self (λ f _, f ∈ @nil value)) [] hc →
  ∃ R hc',
    for_each (dict_keys (graph g)) (reverse_outer self r) hc = (Ret tt, hc') ∧
    rev_inv h self r (λ _ _, True) (λ d, ∃ s, is_Some (edge_at h self s d)) R hc'.
Proof.
  intros Hinv.
  destruct (for_each_inv
              (λ dn hc', ∃ R', rev_inv h self r (λ f _, f ∈ dn)
                                 (visited_into h self (λ f _, f ∈ dn)) R' hc')
              (reverse_outer self r) (dict_keys (graph g)))
    with (hc := hc) as (hc' & Hrun & R' & Hinv').
  - intros dn x hx Hx HI. by apply reverse_outer_step.
  - by exists [].
  - exists R', hc'. split; [done|].
    eapply rev_inv_weaken; [| |exact Hinv'].
    + intros f t [e (g' & v & o & Hg' & Hv & _)%edge_at_Some].
      assert (g' = g) as -> by congruence.
      split; [done|]. intros _. apply dict_keys_get. by rewrite Hv.
    + intros d (s & _ & Hs). by exists s.
Qed.
End reverse_proof.

(** What [reverse] returns on a graph of the store: a new graph object [r]
    and a store [hr] in which [r] is the reversal of [self]. *)
Lemma reverse_spec (h : heap) (self : loc) :
  graph_ok h self →
  ∃ r R hr,
    RoadGraph.reverse self h = (Ret r, hr) ∧
    graphs h !! r = None ∧
    rev_inv h self r (λ _ _, True) (λ d, ∃ s, is_Some (edge_at h self s d)) R hr.
Proof.
  intros (g & Hself & Hok)%graph_ok_entries.
  pose proof (fresh_graph h) as Hr.
  set (r := fresh (dom (graphs h))) in *.
  destruct (reverse_loops h self r g Hself Hok Hr (with_new_graph h))
    as (R & hr & Hrun & Hinv).
  { split; simpl; try done.
    - intros a b e. split.
      + intros (g' & v & o & Hg' & Hv & _)%edge_at_Some. simpl in Hg'.
        rewrite lookup_insert_eq in Hg'. by injection Hg' as <-.
      + by intros [?%elem_of_nil _].
    - apply NoDup_nil_2. }
  exists r, R, hr. split; [|done].
  rewrite reverse_unfold.
  erewrite bind_ret by apply init_ret.
  erewrite bind_ret.
  2:{ apply load_graph_ret. simpl. rewrite lookup_insert_ne; [exact Hself|].
      intros Heq. fold r in Heq. congruence. }
  by erewrite bind_ret by exact Hrun.
Qed.

(** The reversed graph is again a graph of the store. *)
Lemma rev_inv_graph_ok h self r P Q R hr :
  rev_inv h self r P Q R hr → graph_ok hr r.
Proof.
  intros Hinv. unfold graph_ok.
  rewrite (inv_graphs _ _ _ _ _ _ _ Hinv), lookup_insert_eq. simpl.
  apply Forall_forall. intros [k v] Hkv. simpl.
  apply (elem_of_dict_get _ _ _ (inv_nodup _ _ _ _ _ _ _ Hinv)) in Hkv.
  destruct (inv_new _ _ _ _ _ _ _ Hinv _ _ Hkv) as [_ [E HE]]. by rewrite HE.
Qed.

Example example_graph_ok : graph_ok example_heap 1.
Proof. apply (bool_decide_unpack _). vm_compute. exact I. Qed.

(** The reversal of the small network: [B] has the edge of length 5 to [A],
    [C] the edge of length 3 to [B], and [A] is no source vertex. *)
Example example_reverse :
  (RoadGraph.reverse 1 example_heap).1 = Ret 2%positive ∧
  graph <$> graphs example_reversed_heap !! 2%positive
  = Some [(VStr "B", 3%positive); (VStr "C", 4%positive)] ∧
  voes example_reversed_heap !! 3%positive
  = Some {| road_graph := 2; edges := [(VStr "A", VObj 1)] |} ∧
  voes example_reversed_heap !! 4%positive
  = Some {| road_graph := 2; edges := [(VStr "B", VObj 2)] |} ∧
  edge_at example_reversed_heap 2 (VStr "A") (VStr "B") = None.
Proof. repeat split; vm_compute; reflexivity. Qed.

(** C1. On a graph [self] of the store, [reverse] returns a graph object
    [r] that did not exist before. For every arc from [src] to [dest] of
    [self] that stores the edge [e], the container of [dest] in [r] maps [src]
    to the same value [e] (the same reference when [e] is an instance, and no
    instance is created or changed); [r] has no other arc and no source vertex
    that is not the destination of an arc of [self]; and every object of the
    old store, so [self] and its containers, is as it was. *)
Theorem reverse_arcs (h : heap) (self : loc) :
  graph_ok h self →
  ∃ r hr,
    RoadGraph.reverse self h = (Ret r, hr) ∧
    graphs h !! r = None ∧
    (∀ src dest e, edge_at h self src dest = Some e →
                   edge_at hr r dest src = Some e) ∧
    (∀ a b e, edge_at hr r a b = Some e → edge_at h self b a = Some e) ∧
    (∃ g_r, graphs hr !! r = Some g_r ∧
            ∀ d, d ∈ dict_keys (graph g_r) → ∃ s, is_Some (edge_at h self s d)) ∧
    instances hr = instances h ∧
    (∀ l o, voes h !! l = Some o → voes hr !! l = Some o) ∧
    (∀ l, l ≠ r → graphs hr !! l = graphs h !! l) ∧
    (∀ src dest, edge_at hr self src dest = edge_at h self src dest).
Proof.
  intros Hok.
  destruct (reverse_spec h self Hok) as (r & R & hr & Hrun & Hr & Hinv).
  pose proof Hinv as [H1 H2 H3 H4 H5 H6 H7 H8].
  pose proof Hok as (g & Hself & Hentries)%graph_ok_entries.
  assert (self ≠ r) as Hne by (intros ->; congruence).
  exists r, hr. split; [done|]. split; [done|].
  split; [intros src dest e He; by apply H6|].
  split; [intros a b e He; by apply H6 in He as [_ He]|].
  split.
  { eexists. split; [by rewrite H2, lookup_insert_eq|]. simpl.
    intros d [v Hd]%dict_keys_get. by eapply H7. }
  split; [done|]. split; [done|].
  split; [intros l Hl; by rewrite H2, lookup_insert_ne|].
  intros src dest. unfold edge_at.
  rewrite H2, lookup_insert_ne by done. rewrite Hself. simpl.
  destruct (dict_get src (graph g)) as [v|] eqn:Hv; [|done]. simpl.
  destruct (Hentries _ _ Hv) as [o Ho]. by rewrite (H3 _ _ Ho), Ho.
Qed.

Lemma reverse_arcs_witness :
  ∃ r hr,
    RoadGraph.reverse 1 example_heap = (Ret r, hr) ∧
    graphs example_heap !! r = None ∧
    (∀ src dest e, edge_at example_heap 1 src dest = Some e →
                   edge_at hr r dest src = Some e) ∧
    (∀ a b e, edge_at hr r a b = Some e → edge_at example_heap 1 b a = Some e) ∧
    (∃ g_r, graphs hr !! r = Some g_r ∧
            ∀ d, d ∈ dict_keys (graph g_r) →
                 ∃ s, is_Some (edge_at example_heap 1 s d)) ∧
    instances hr = instances example_heap ∧
    (∀ l o, voes example_heap !! l = Some o → voes hr !! l = Some o) ∧
    (∀ l, l ≠ r → graphs hr !! l = graphs example_heap !! l) ∧
    (∀ src dest, edge_at hr 1 src dest = edge_at example_heap 1 src dest).
Proof.
  apply (reverse_arcs example_heap 1).
  apply (bool_decide_unpack _). vm_compute. exact I.
Defined.

(** C6. Reversing twice gives a graph with the arcs of the original: the
    triples of source, destination and edge of the second reversal are those
    of [self]. Nothing is said of the weight function. *)
Theorem reverse_reverse (h : heap) (self : loc) :
  graph_ok h self →
  ∃ r1 h1 r2 h2,
    RoadGraph.reverse self h = (Ret r1, h1) ∧
    RoadGraph.reverse r1 h1 = (Ret r2, h2) ∧
    ∀ src dest e, edge_at h2 r2 src dest = Some e ↔ edge_at h self src dest = Some e.
Proof.
  intros Hok.
  destruct (reverse_spec h self Hok) as (r1 & R1 & h1 & Hrun1 & Hr1 & Hinv1).
  pose proof (rev_inv_graph_ok _ _ _ _ _ _ _ Hinv1) as Hok1.
  destruct (reverse_spec h1 r1 Hok1) as (r2 & R2 & h2 & Hrun2 & Hr2 & Hinv2).
  exists r1, h1, r2, h2. split; [done|]. split; [done|].
  intros src dest e.
  rewrite (inv_arcs _ _ _ _ _ _ _ Hinv2), (inv_arcs _ _ _ _ _ _ _ Hinv1).
  tauto.
Qed.

Lemma reverse_reverse_witness :
  ∃ r1 h1 r2 h2,
    RoadGraph.reverse 1 example_heap = (Ret r1, h1) ∧
    RoadGraph.reverse r1 h1 = (Ret r2, h2) ∧
    ∀ src dest e,
      edge_at h2 r2 src dest = Some e ↔ edge_at example_heap 1 src dest = Some e.
Proof.
  apply (reverse_reverse example_heap 1).
  apply (bool_decide_unpack _). vm_compute. exact I.
Defined.

(** C8. Whatever weight function the graph [self] has (a named one, a
    function of the caller, or none yet), the graph [reverse] returns has the
    default one, weight if present and length otherwise, which is the one a
    newly constructed [RoadGraph] has. *)
Theorem reverse_default_weight_function (h : heap) (self : loc)
    (G : dict loc) (f : option pyarg) :
  graphs h !! self = Some {| graph := G; _edge_weight_fun := f |} →
  Forall (λ kv, is_Some (voes h !! kv.2)) G →
  ∃ r hr g_r new h_new g_new,
    RoadGraph.reverse self h = (Ret r, hr) ∧
    graphs hr !! r = Some g_r ∧
    _edge_weight_fun g_r = Some (Fn RoadGraph.lambda_length) ∧
    RoadGraph.__init__ h = (Ret new, h_new) ∧
    graphs h_new !! new = Some g_new ∧
    _edge_weight_fun g_new = _edge_weight_fun g_r.
Proof.
  intros Hself Hall.
  assert (graph_ok h self) as Hok by (unfold graph_ok; by rewrite Hself).
  destruct (reverse_spec h self Hok) as (r & R & hr & Hrun & Hr & Hinv).
  eexists r, hr, _, _, _, _. split; [done|].
  split; [by rewrite (inv_graphs _ _ _ _ _ _ _ Hinv), lookup_insert_eq|].
  split; [done|].
  split; [apply init_ret|].
  split; [simpl; apply lookup_insert_eq|]. done.
Qed.

Lemma reverse_default_weight_function_witness :
  ∃ r hr g_r new h_new g_new,
    RoadGraph.reverse 1 example_time_heap = (Ret r, hr) ∧
    graphs hr !! r = Some g_r ∧
    _edge_weight_fun g_r = Some (Fn RoadGraph.lambda_length) ∧
    RoadGraph.__init__ example_time_heap = (Ret new, h_new) ∧
    graphs h_new !! new = Some g_new ∧
    _edge_weight_fun g_new = _edge_weight_fun g_r.
Proof.
  apply (reverse_default_weight_function example_time_heap 1
           [(VStr "A", 1%positive); (VStr "B", 2%positive)]
           (Some (Fn RoadGraph.lambda_time))).
  - reflexivity.
  - apply (bool_decide_unpack _). vm_compute. exact I.
Defined.

(** * Further properties of the three classes *)

(** ** Dictionaries, continued *)
Section dict_more.
Context {V : Type}.
Implicit Types (d : dict V) (k : value) (v : V).

Lemma dict_get_del_ne d k k' : k ≠ k' → dict_get k' (dict_del k d) = dict_get k' d.
Proof.
  intros Hne. induction d as [|[k0 v0] d IH]; simpl; [done|].
  destruct (decide (k0 = k)) as [->|Hne0]; simpl.
  - by rewrite decide_False.
  - destruct (decide (k0 = k')); [done | apply IH].
Qed.

Lemma dict_del_length d k :
  is_Some (dict_get k d) → S (length (dict_del k d)) = length d.
Proof.
  induction d as [|[k0 v0] d IH]; simpl.
  - by intros [? ?].
  - destruct (decide (k0 = k)) as [->|Hne]; simpl; [done|].
    intros Hk. by rewrite IH.
Qed.

Lemma dict_set_length d k v :
  length (dict_set k v d)
  = match dict_get k d with
    | Some _ => length d
    | None => S (length d)
    end.
Proof.
  induction d as [|[k0 v0] d IH]; simpl; [done|].
  destruct (decide (k0 = k)) as [->|Hne]; simpl; [done|].
  rewrite IH. by destruct (dict_get k d).
Qed.

Lemma dict_set_keys d k v k' :
  k' ∈ dict_keys (dict_set k v d) ↔ k' = k ∨ k' ∈ dict_keys d.
Proof.
  rewrite !dict_keys_get, dict_get_set.
  destruct (decide (k = k')) as [->|Hne].
  - split; [by left | by eexists].
  - split; [by right | intros [?|?]; [congruence | done]].
Qed.

Lemma dict_del_NoDup d k : NoDup (dict_keys d) → NoDup (dict_keys (dict_del k d)).
Proof.
  unfold dict_keys. induction d as [|[k0 v0] d IH]; simpl; [done|].
  intros [Hnotin Hnd]%NoDup_cons.
  destruct (decide (k0 = k)) as [->|Hne]; simpl; [done|].
  apply NoDup_cons. split; [|by apply IH].
  intros Hin. apply (dict_keys_get (dict_del k d) k0) in Hin.
  rewrite dict_get_del_ne in Hin by done.
  by apply dict_keys_get in Hin.
Qed.
End dict_more.

(** ** Runs of the container methods on a given store *)

Lemma voe_getitem_ret self dest h o e g f :
  voes h !! self = Some o →
  dict_get dest (edges o) = Some e →
  graphs h !! road_graph o = Some g →
  _edge_weight_fun g = Some (Fn f) →
  VertexOutgoingEdges.__getitem__ self dest h = (f (instances h) e, h).
Proof.
  intros Ho Hd Hg Hf. unfold VertexOutgoingEdges.__getitem__.
  do 3 step. by rewrite Hf.
Qed.

Lemma voe_setitem_ret self dest val h o l a :
  voes h !! self = Some o →
  dict_get dest (edges o) = Some (VObj l) →
  instances h !! l = Some a →
  VertexOutgoingEdges.__setitem__ self dest val h = (Ret tt, with_weight l a val h).
Proof.
  intros Ho Hd Ha. unfold VertexOutgoingEdges.__setitem__. do 2 step.
  rewrite decide_False by done. unfold bind at 1, ret at 1.
  do 2 step. unfold setattr. by rewrite Ha.
Qed.

Lemma voe_get_edge_ret self dest h o e :
  voes h !! self = Some o →
  dict_get dest (edges o) = Some e →
  VertexOutgoingEdges.get_edge self dest h = (Ret e, h).
Proof.
  intros Ho Hd. unfold VertexOutgoingEdges.get_edge. step. by apply subscript_ret.
Qed.

Lemma voe_get_edge_raise self dest h o :
  voes h !! self = Some o →
  dict_get dest (edges o) = None →
  VertexOutgoingEdges.get_edge self dest h = (Raise KeyError, h).
Proof.
  intros Ho Hd. unfold VertexOutgoingEdges.get_edge. step. by apply subscript_raise.
Qed.

Lemma voe_set_edge_ret self dest edge h o :
  voes h !! self = Some o →
  VertexOutgoingEdges.set_edge self dest edge h
  = (Ret tt, with_edges self (road_graph o) (dict_set dest edge (edges o)) h).
Proof. intros Ho. unfold VertexOutgoingEdges.set_edge. by step. Qed.

Lemma resolve_weight fallback a val :
  resolve fallback (<["weight" := val]> a) = Ret val.
Proof. unfold resolve. by rewrite lookup_insert_eq. Qed.

(** ** VertexOutgoingEdges, continued *)

(** X1. The weight-style assignment [voe[dest] = val] to a destination whose
    entry is [None] raises [TypeError]: the code calls [Edge()] to make up
    the missing edge, and the constructor of [Edge] requires a length. The
    store is left as it was. *)
Theorem setitem_None_entry_TypeError (self : loc) (dest val : value) (h : heap)
    (o : voe_object) :
  voes h !! self = Some o →
  dict_get dest (edges o) = Some VNone →
  VertexOutgoingEdges.__setitem__ self dest val h = (Raise TypeError, h).
Proof.
  intros Ho Hd. unfold VertexOutgoingEdges.__setitem__. do 2 step.
  rewrite decide_True by done. reflexivity.
Qed.

Lemma setitem_None_entry_TypeError_witness :
  VertexOutgoingEdges.__setitem__ 1 (VStr "B") (VNum 9)
    (with_edges 1 1 [(VStr "B", VNone)] example_heap)
  = (Raise TypeError, with_edges 1 1 [(VStr "B", VNone)] example_heap).
Proof.
  exact (setitem_None_entry_TypeError 1 (VStr "B") (VNum 9)
           (with_edges 1 1 [(VStr "B", VNone)] example_heap)
           {| road_graph := 1; edges := [(VStr "B", VNone)] |} eq_refl eq_refl).
Defined.

(** X2. With the parent graph in ["length"] or ["time"] mode, a weight
    assigned by [voe[dest] = val] to a stored edge is what the weighted read
    [voe[dest]] returns next. *)
Theorem setitem_getitem_roundtrip (self : loc) (dest val : value) (h : heap)
    (o : voe_object) (l : loc) (a : gmap string value) (g : graph_object) (f : pyfun) :
  voes h !! self = Some o →
  dict_get dest (edges o) = Some (VObj l) →
  instances h !! l = Some a →
  graphs h !! road_graph o = Some g →
  _edge_weight_fun g = Some (Fn f) →
  f = RoadGraph.lambda_length ∨ f = RoadGraph.lambda_time →
  (VertexOutgoingEdges.__setitem__ self dest val ;;;
   VertexOutgoingEdges.__getitem__ self dest) h
  = (Ret val, with_weight l a val h).
Proof.
  intros Ho Hd Ha Hg Hf Hmode.
  erewrite bind_ret by (by eapply voe_setitem_ret).
  erewrite voe_getitem_ret by done. simpl.
  destruct Hmode as [-> | ->].
  - erewrite lambda_length_resolve by apply lookup_insert_eq.
    by rewrite resolve_weight.
  - erewrite lambda_time_resolve by apply lookup_insert_eq.
    by rewrite resolve_weight.
Qed.

Lemma setitem_getitem_roundtrip_witness :
  (VertexOutgoingEdges.__setitem__ 1 (VStr "B") (VNum 9) ;;;
   VertexOutgoingEdges.__getitem__ 1 (VStr "B")) example_time_heap
  = (Ret (VNum 9),
     with_weight 1 {["time" := VNum 2; "length" := VNum 5]} (VNum 9) example_time_heap).
Proof.
  exact (setitem_getitem_roundtrip 1 (VStr "B") (VNum 9) example_time_heap
           {| road_graph := 1; edges := [(VStr "B", VObj 1)] |}
           1 {["time" := VNum 2; "length" := VNum 5]}
           {| graph := [(VStr "A", 1%positive); (VStr "B", 2%positive)];
              _edge_weight_fun := Some (Fn RoadGraph.lambda_time) |}
           RoadGraph.lambda_time
           eq_refl eq_refl eq_refl eq_refl eq_refl (or_intror eq_refl)).
Defined.

(** X3. The weighted read of a destination whose entry is [None], a number
    or a string raises [AttributeError] under the ["length"] and the ["time"]
    function: such an entry has neither a weight nor the attribute the
    function falls back to. The store is left as it was. *)
Theorem getitem_non_edge_AttributeError (self : loc) (dest e : value) (h : heap)
    (o : voe_object) (g : graph_object) (f : pyfun) :
  voes h !! self = Some o →
  dict_get dest (edges o) = Some e →
  (∀ l, e ≠ VObj l) →
  graphs h !! road_graph o = Some g →
  _edge_weight_fun g = Some (Fn f) →
  f = RoadGraph.lambda_length ∨ f = RoadGraph.lambda_time →
  VertexOutgoingEdges.__getitem__ self dest h = (Raise AttributeError, h).
Proof.
  intros Ho Hd He Hg Hf Hmode.
  erewrite voe_getitem_ret by done.
  destruct Hmode as [-> | ->];
    destruct e as [|n|s|l]; try done; by destruct (He l).
Qed.

Lemma getitem_non_edge_AttributeError_witness :
  VertexOutgoingEdges.__getitem__ 1 (VStr "B")
    (with_edges 1 1 [(VStr "B", VNone)] example_heap)
  = (Raise AttributeError, with_edges 1 1 [(VStr "B", VNone)] example_heap).
Proof.
  refine (getitem_non_edge_AttributeError 1 (VStr "B") VNone
            (with_edges 1 1 [(VStr "B", VNone)] example_heap)
            {| road_graph := 1; edges := [(VStr "B", VNone)] |}
            {| graph := [(VStr "A", 1%positive); (VStr "B", 2%positive)];
               _edge_weight_fun := Some (Fn RoadGraph.lambda_length) |}
            RoadGraph.lambda_length
            eq_refl eq_refl _ eq_refl eq_refl (or_introl eq_refl)).
  intros l Hl. discriminate Hl.
Defined.

(** X4. [del voe[dest]] raises [KeyError] and changes nothing when [dest]
    has no entry. When it has one, the entry is removed: [get_edge(dest)]
    then raises [KeyError], every other destination keeps its edge, the
    length of the container drops by one, and graphs and instances are as
    before. *)
Theorem voe_delitem (self : loc) (dest : value) (h : heap) (o : voe_object) :
  voes h !! self = Some o →
  NoDup (dict_keys (edges o)) →
  (dict_get dest (edges o) = None →
   VertexOutgoingEdges.__delitem__ self dest h = (Raise KeyError, h)) ∧
  (is_Some (dict_get dest (edges o)) →
   ∃ h' n,
     VertexOutgoingEdges.__delitem__ self dest h = (Ret tt, h') ∧
     VertexOutgoingEdges.get_edge self dest h' = (Raise KeyError, h') ∧
     (∀ k e, k ≠ dest → dict_get k (edges o) = Some e →
             VertexOutgoingEdges.get_edge self k h' = (Ret e, h')) ∧
     VertexOutgoingEdges.__len__ self h' = (Ret n, h') ∧
     S n = length (edges o) ∧
     instances h' = instances h ∧
     graphs h' = graphs h).
Proof.
  intros Ho Hnd. unfold VertexOutgoingEdges.__delitem__. split.
  - intros Hd. by do 2 step.
  - intros [e Hd].
    exists (with_edges self (road_graph o) (dict_del dest (edges o)) h),
           (length (dict_del dest (edges o))).
    split; [by do 2 step|].
    split.
    { eapply voe_get_edge_raise; [simpl; apply lookup_insert_eq|].
      simpl. by apply dict_get_del_eq. }
    split.
    { intros k e' Hk He'. eapply voe_get_edge_ret; [simpl; apply lookup_insert_eq|].
      simpl. rewrite dict_get_del_ne by done. done. }
    split.
    { unfold VertexOutgoingEdges.__len__.
      erewrite bind_ret by (apply load_voe_ret; simpl; apply lookup_insert_eq).
      reflexivity. }
    split; [apply dict_del_length; by rewrite Hd|]. done.
Qed.

Lemma voe_delitem_witness :
  (dict_get (VStr "C") [(VStr "B", VObj 1)] = None →
   VertexOutgoingEdges.__delitem__ 1 (VStr "C") example_heap
   = (Raise KeyError, example_heap)) ∧
  (is_Some (dict_get (VStr "C") [(VStr "B", VObj 1)]) →
   ∃ h' n,
     VertexOutgoingEdges.__delitem__ 1 (VStr "C") example_heap = (Ret tt, h') ∧
     VertexOutgoingEdges.get_edge 1 (VStr "C") h' = (Raise KeyError, h') ∧
     (∀ k e, k ≠ VStr "C" → dict_get k [(VStr "B", VObj 1)] = Some e →
             VertexOutgoingEdges.get_edge 1 k h' = (Ret e, h')) ∧
     VertexOutgoingEdges.__len__ 1 h' = (Ret n, h') ∧
     S n = length [(VStr "B", VObj 1)] ∧
     instances h' = instances example_heap ∧
     graphs h' = graphs example_heap).
Proof.
  refine (voe_delitem 1 (VStr "C") example_heap
            {| road_graph := 1; edges := [(VStr "B", VObj 1)] |} eq_refl _).
  simpl. apply NoDup_singleton.
Defined.

(** X5. After [set_edge(dest, edge)] the container iterates over [dest] and
    the destinations it had, each once, and its length is the number of them:
    one more than before when [dest] is new, the same when [dest] had an
    entry. *)
Theorem voe_set_edge_iter_len (self : loc) (dest edge : value) (h : heap)
    (o : voe_object) :
  voes h !! self = Some o →
  NoDup (dict_keys (edges o)) →
  ∃ h' ks,
    VertexOutgoingEdges.set_edge self dest edge h = (Ret tt, h') ∧
    VertexOutgoingEdges.__iter__ self h' = (Ret ks, h') ∧
    VertexOutgoingEdges.__len__ self h' = (Ret (length ks), h') ∧
    NoDup ks ∧
    (∀ k, k ∈ ks ↔ k = dest ∨ k ∈ dict_keys (edges o)) ∧
    length ks = match dict_get dest (edges o) with
                | Some _ => length (edges o)
                | None => S (length (edges o))
                end.
Proof.
  intros Ho Hnd.
  exists (with_edges self (road_graph o) (dict_set dest edge (edges o)) h),
         (dict_keys (dict_set dest edge (edges o))).
  split; [by apply voe_set_edge_ret|].
  split.
  { unfold VertexOutgoingEdges.__iter__.
    erewrite bind_ret by (apply load_voe_ret; simpl; apply lookup_insert_eq).
    reflexivity. }
  split.
  { unfold VertexOutgoingEdges.__len__.
    erewrite bind_ret by (apply load_voe_ret; simpl; apply lookup_insert_eq).
    unfold dict_keys. by rewrite length_fmap. }
  split; [by apply dict_set_NoDup|].
  split; [intros k; apply dict_set_keys|].
  unfold dict_keys. rewrite length_fmap. apply dict_set_length.
Qed.

Lemma voe_set_edge_iter_len_witness :
  ∃ h' ks,
    VertexOutgoingEdges.set_edge 1 (VStr "C") (VObj 2) example_heap = (Ret tt, h') ∧
    VertexOutgoingEdges.__iter__ 1 h' = (Ret ks, h') ∧
    VertexOutgoingEdges.__len__ 1 h' = (Ret (length ks), h') ∧
    NoDup ks ∧
    (∀ k, k ∈ ks ↔ k = VStr "C" ∨ k ∈ dict_keys [(VStr "B", VObj 1)]) ∧
    length ks = 2.
Proof.
  refine (voe_set_edge_iter_len 1 (VStr "C") (VObj 2) example_heap
            {| road_graph := 1; edges := [(VStr "B", VObj 1)] |} eq_refl _).
  simpl. apply NoDup_singleton.
Defined.

(** ** RoadGraph, continued *)

Lemma graph_setitem_ret self key val h g :
  graphs h !! self = Some g →
  RoadGraph.__setitem__ self key val h
  = (Ret tt, with_graph self (dict_set key val (graph g)) (_edge_weight_fun g) h).
Proof. intros Hg. unfold RoadGraph.__setitem__. by step. Qed.

Lemma get_edge_weight_function_ret self h g f :
  graphs h !! self = Some g →
  _edge_weight_fun g = Some f →
  RoadGraph.get_edge_weight_function self h = (Ret f, h).
Proof.
  intros Hg Hf. unfold RoadGraph.get_edge_weight_function. step. by rewrite Hf.
Qed.

(** X6. [graph[key] = voe] stores the container under [key] whatever was
    there and whatever graph the container refers to; [graph[key]] then
    returns it, every other vertex keeps its container, and the weight
    function, the containers and the instances are as before. *)
Theorem graph_setitem_getitem (self : loc) (key : value) (voe : loc) (h : heap)
    (g : graph_object) :
  graphs h !! self = Some g →
  ∃ h',
    RoadGraph.__setitem__ self key voe h = (Ret tt, h') ∧
    RoadGraph.__getitem__ self key h' = (Ret voe, h') ∧
    RoadGraph.__contains__ self key h' = (Ret true, h') ∧
    (∀ k v, k ≠ key → dict_get k (graph g) = Some v →
            RoadGraph.__getitem__ self k h' = (Ret v, h')) ∧
    (∀ k, k ≠ key → dict_get k (graph g) = None →
          RoadGraph.__getitem__ self k h' = (Raise KeyError, h')) ∧
    (∀ f, _edge_weight_fun g = Some f →
          RoadGraph.get_edge_weight_function self h' = (Ret f, h')) ∧
    voes h' = voes h ∧
    instances h' = instances h.
Proof.
  intros Hg.
  exists (with_graph self (dict_set key voe (graph g)) (_edge_weight_fun g) h).
  assert (graphs (with_graph self (dict_set key voe (graph g)) (_edge_weight_fun g) h)
            !! self
          = Some {| graph := dict_set key voe (graph g);
                    _edge_weight_fun := _edge_weight_fun g |}) as Hg'
    by (simpl; apply lookup_insert_eq).
  split; [by apply graph_setitem_ret|].
  split; [eapply graph_getitem_ret; [exact Hg' | apply dict_get_set_eq]|].
  split.
  { erewrite contains_ret by exact Hg'. simpl.
    rewrite dict_get_set_eq. by rewrite bool_decide_true by eauto. }
  split.
  { intros k v Hk Hv. eapply graph_getitem_ret; [exact Hg'|].
    simpl. by rewrite dict_get_set_ne. }
  split.
  { intros k Hk Hv. eapply graph_getitem_raise; [exact Hg'|].
    simpl. by rewrite dict_get_set_ne. }
  split; [intros f Hf; by eapply get_edge_weight_function_ret|].
  done.
Qed.

Lemma graph_setitem_getitem_witness :
  ∃ h',
    RoadGraph.__setitem__ 1 (VStr "C") 2 example_heap = (Ret tt, h') ∧
    RoadGraph.__getitem__ 1 (VStr "C") h' = (Ret 2%positive, h') ∧
    RoadGraph.__contains__ 1 (VStr "C") h' = (Ret true, h') ∧
    (∀ k v, k ≠ VStr "C" →
            dict_get k [(VStr "A", 1%positive); (VStr "B", 2%positive)] = Some v →
            RoadGraph.__getitem__ 1 k h' = (Ret v, h')) ∧
    (∀ k, k ≠ VStr "C" →
          dict_get k [(VStr "A", 1%positive); (VStr "B", 2%positive)] = None →
          RoadGraph.__getitem__ 1 k h' = (Raise KeyError, h')) ∧
    (∀ f, Some (Fn RoadGraph.lambda_length) = Some f →
          RoadGraph.get_edge_weight_function 1 h' = (Ret f, h')) ∧
    voes h' = voes example_heap ∧
    instances h' = instances example_heap.
Proof.
  exact (graph_setitem_getitem 1 (VStr "C") 2 example_heap
           {| graph := [(VStr "A", 1%positive); (VStr "B", 2%positive)];
              _edge_weight_fun := Some (Fn RoadGraph.lambda_length) |} eq_refl).
Defined.

(** X7. For a vertex that is no key of the graph, [graph[key]] and
    [del graph[key]] raise [KeyError], [key in graph] is false, and none of
    the three changes the store. When the vertex is a key, [del graph[key]]
    removes it: [key in graph] is false afterwards, the other vertices keep
    their containers, and the length of the graph drops by one. *)
Theorem graph_missing_and_delitem (self : loc) (key : value) (h : heap)
    (g : graph_object) :
  graphs h !! self = Some g →
  NoDup (dict_keys (graph g)) →
  (dict_get key (graph g) = None →
   RoadGraph.__getitem__ self key h = (Raise KeyError, h) ∧
   RoadGraph.__delitem__ self key h = (Raise KeyError, h) ∧
   RoadGraph.__contains__ self key h = (Ret false, h)) ∧
  (is_Some (dict_get key (graph g)) →
   ∃ h' n,
     RoadGraph.__delitem__ self key h = (Ret tt, h') ∧
     RoadGraph.__contains__ self key h' = (Ret false, h') ∧
     (∀ k v, k ≠ key → dict_get k (graph g) = Some v →
             RoadGraph.__getitem__ self k h' = (Ret v, h')) ∧
     RoadGraph.__len__ self h' = (Ret n, h') ∧
     S n = length (graph g) ∧
     voes h' = voes h ∧
     instances h' = instances h).
Proof.
  intros Hg Hnd. split.
  - intros Hk. split; [by eapply graph_getitem_raise|]. split.
    + unfold RoadGraph.__delitem__. by do 2 step.
    + erewrite contains_ret by done. rewrite Hk.
      by rewrite bool_decide_false by (by intros [? ?]).
  - intros [v Hk].
    exists (with_graph self (dict_del key (graph g)) (_edge_weight_fun g) h),
           (length (dict_del key (graph g))).
    assert (graphs (with_graph self (dict_del key (graph g)) (_edge_weight_fun g) h)
              !! self
            = Some {| graph := dict_del key (graph g);
                      _edge_weight_fun := _edge_weight_fun g |}) as Hg'
      by (simpl; apply lookup_insert_eq).
    split; [unfold RoadGraph.__delitem__; by do 2 step|].
    split.
    { erewrite contains_ret by exact Hg'. simpl.
      rewrite dict_get_del_eq by done.
      by rewrite bool_decide_false by (by intros [? ?]). }
    split.
    { intros k v' Hne Hv'. eapply graph_getitem_ret; [exact Hg'|].
      simpl. by rewrite dict_get_del_ne. }
    split.
    { unfold RoadGraph.__len__.
      erewrite bind_ret by (apply load_graph_ret; exact Hg'). reflexivity. }
    split; [apply dict_del_length; by rewrite Hk|]. done.
Qed.

Lemma graph_missing_and_delitem_witness :
  (dict_get (VStr "A") [(VStr "A", 1%positive); (VStr "B", 2%positive)] = None →
   RoadGraph.__getitem__ 1 (VStr "A") example_heap = (Raise KeyError, example_heap) ∧
   RoadGraph.__delitem__ 1 (VStr "A") example_heap = (Raise KeyError, example_heap) ∧
   RoadGraph.__contains__ 1 (VStr "A") example_heap = (Ret false, example_heap)) ∧
  (is_Some (dict_get (VStr "A") [(VStr "A", 1%positive); (VStr "B", 2%positive)]) →
   ∃ h' n,
     RoadGraph.__delitem__ 1 (VStr "A") example_heap = (Ret tt, h') ∧
     RoadGraph.__contains__ 1 (VStr "A") h' = (Ret false, h') ∧
     (∀ k v, k ≠ VStr "A" →
             dict_get k [(VStr "A", 1%positive); (VStr "B", 2%positive)] = Some v →
             RoadGraph.__getitem__ 1 k h' = (Ret v, h')) ∧
     RoadGraph.__len__ 1 h' = (Ret n, h') ∧
     S n = 2 ∧
     voes h' = voes example_heap ∧
     instances h' = instances example_heap).
Proof.
  refine (graph_missing_and_delitem 1 (VStr "A") example_heap
            {| graph := [(VStr "A", 1%positive); (VStr "B", 2%positive)];
               _edge_weight_fun := Some (Fn RoadGraph.lambda_length) |} eq_refl _).
  apply (bool_decide_unpack _). vm_compute. exact I.
Defined.

(** X8. A callable given to [set_edge_weight_function] is installed as it
    is: [get_edge_weight_function] returns it, and the weighted read of every
    container of the graph returns what it returns for the stored entry,
    an exception it raises included. *)
Theorem custom_weight_function (self : loc) (f : pyfun) (h : heap) (g : graph_object) :
  graphs h !! self = Some g →
  ∃ h',
    RoadGraph.set_edge_weight_function self (Some (Fn f)) h = (Ret tt, h') ∧
    RoadGraph.get_edge_weight_function self h' = (Ret (Fn f), h') ∧
    ∀ voe o dest e,
      voes h !! voe = Some o →
      road_graph o = self →
      dict_get dest (edges o) = Some e →
      VertexOutgoingEdges.__getitem__ voe dest h' = (f (instances h) e, h').
Proof.
  intros Hg. exists (with_weight_fun self g (Fn f) h).
  split; [by apply set_weight_fun_ret|].
  split.
  { eapply get_edge_weight_function_ret; [simpl; apply lookup_insert_eq | done]. }
  intros voe o dest e Ho Hparent Hd.
  apply (voe_getitem_ret voe dest (with_weight_fun self g (Fn f) h) o e
           {| graph := graph g; _edge_weight_fun := Some (Fn f) |} f);
    [done | done | | done].
  simpl. rewrite Hparent. apply lookup_insert_eq.
Qed.

Lemma custom_weight_function_witness :
  ∃ h',
    RoadGraph.set_edge_weight_function 1 (Some (Fn (λ _ _, Ret (VNum 1)))) example_heap
    = (Ret tt, h') ∧
    RoadGraph.get_edge_weight_function 1 h' = (Ret (Fn (λ _ _, Ret (VNum 1))), h') ∧
    ∀ voe o dest e,
      voes example_heap !! voe = Some o →
      road_graph o = 1%positive →
      dict_get dest (edges o) = Some e →
      VertexOutgoingEdges.__getitem__ voe dest h' = (Ret (VNum 1), h').
Proof.
  exact (custom_weight_function 1 (λ _ _, Ret (VNum 1)) example_heap
           {| graph := [(VStr "A", 1%positive); (VStr "B", 2%positive)];
              _edge_weight_fun := Some (Fn RoadGraph.lambda_length) |} eq_refl).
Defined.

(** X9. [set_edge_weight_function] either returns or raises [ValueError],
    and in both cases rewrites no stored data: the vertices of the graph and
    their containers, the edges and their attributes, and every other graph
    are as before, so [get_edge] returns what it returned. *)
Theorem set_edge_weight_function_frame (self : loc) (arg : option pyarg) (h : heap)
    (g : graph_object) :
  graphs h !! self = Some g →
  ∃ out h',
    RoadGraph.set_edge_weight_function self arg h = (out, h') ∧
    (out = Ret tt ∨ out = Raise ValueError) ∧
    instances h' = instances h ∧
    voes h' = voes h ∧
    (∀ l, l ≠ self → graphs h' !! l = graphs h !! l) ∧
    (∃ g', graphs h' !! self = Some g' ∧ graph g' = graph g) ∧
    (∀ src dest, edge_at h' self src dest = edge_at h self src dest) ∧
    (∀ voe dest, VertexOutgoingEdges.get_edge voe dest h'
                 = ((VertexOutgoingEdges.get_edge voe dest h).1, h')).
Proof.
  intros Hg.
  assert (∀ f,
            let h' := with_weight_fun self g f h in
            instances h' = instances h ∧
            voes h' = voes h ∧
            (∀ l, l ≠ self → graphs h' !! l = graphs h !! l) ∧
            (∃ g', graphs h' !! self = Some g' ∧ graph g' = graph g) ∧
            (∀ src dest, edge_at h' self src dest = edge_at h self src dest) ∧
            (∀ voe dest, VertexOutgoingEdges.get_edge voe dest h'
                         = ((VertexOutgoingEdges.get_edge voe dest h).1, h')))
    as Hframe.
  { intros f h'. split; [done|]. split; [done|].
    split; [intros l Hl; simpl; by rewrite lookup_insert_ne|].
    split; [eexists; split; [simpl; apply lookup_insert_eq | done]|].
    split.
    - intros src dest. unfold edge_at. simpl.
      by rewrite lookup_insert_eq, Hg.
    - intros voe dest. unfold VertexOutgoingEdges.get_edge, bind, load_voe, subscript.
      simpl. destruct (voes h !! voe) as [o|]; [|done].
      by destruct (dict_get dest (edges o)). }
  unfold RoadGraph.set_edge_weight_function.
  destruct (RoadGraph.is_None (default (Val VNone) arg)
            || RoadGraph.eq_str (default (Val VNone) arg) "length").
  { eexists _, _. split; [by apply set_weight_fun_ret|].
    split; [by left | apply Hframe]. }
  destruct (RoadGraph.eq_str (default (Val VNone) arg) "time").
  { eexists _, _. split; [by apply set_weight_fun_ret|].
    split; [by left | apply Hframe]. }
  destruct (callable (default (Val VNone) arg)).
  { eexists _, _. split; [by apply set_weight_fun_ret|].
    split; [by left | apply Hframe]. }
  exists (Raise ValueError), h. split; [done|]. split; [by right|].
  split; [done|]. split; [done|]. split; [done|].
  split; [by exists g|]. split; [done|].
  intros voe dest. unfold VertexOutgoingEdges.get_edge, bind, load_voe, subscript.
  destruct (voes h !! voe) as [o|]; [|done].
  by destruct (dict_get dest (edges o)).
Qed.

Lemma set_edge_weight_function_frame_witness :
  ∃ out h',
    RoadGraph.set_edge_weight_function 1 (Some (Val (VStr "time"))) example_heap
    = (out, h') ∧
    (out = Ret tt ∨ out = Raise ValueError) ∧
    instances h' = instances example_heap ∧
    voes h' = voes example_heap ∧
    (∀ l, l ≠ 1%positive → graphs h' !! l = graphs example_heap !! l) ∧
    (∃ g', graphs h' !! 1%positive = Some g' ∧
           graph g' = [(VStr "A", 1%positive); (VStr "B", 2%positive)]) ∧
    (∀ src dest, edge_at h' 1 src dest = edge_at example_heap 1 src dest) ∧
    (∀ voe dest, VertexOutgoingEdges.get_edge voe dest h'
                 = ((VertexOutgoingEdges.get_edge voe dest example_heap).1, h')).
Proof.
  exact (set_edge_weight_function_frame 1 (Some (Val (VStr "time"))) example_heap
           {| graph := [(VStr "A", 1%positive); (VStr "B", 2%positive)];
              _edge_weight_fun := Some (Fn RoadGraph.lambda_length) |} eq_refl).
Defined.

(** ** Edge *)

(** X10. [Edge(length)] returns a new instance whose only attribute is
    [length]: the default weight function reads it as [length], and the
    ["time"] function fails on it with [AttributeError] until a [time] or a
    [weight] is assigned. Nothing else in the store changes, and a call with
    any other number of arguments raises [TypeError] and creates nothing. *)
Theorem Edge_init_fresh (length : value) (h : heap) :
  ∃ l h',
    Edge.__init__ [length] h = (Ret (VObj l), h') ∧
    instances h !! l = None ∧
    instances h' !! l = Some {["length" := length]} ∧
    (∀ l', l' ≠ l → instances h' !! l' = instances h !! l') ∧
    voes h' = voes h ∧
    graphs h' = graphs h ∧
    RoadGraph.lambda_length (instances h') (VObj l) = Ret length ∧
    RoadGraph.lambda_time (instances h') (VObj l) = Raise AttributeError ∧
    ∀ args, List.length args ≠ 1 → Edge.__init__ args h = (Raise TypeError, h).
Proof.
  exists (fresh (dom (instances h))), ((Edge.__init__ [length] h).2).
  split; [reflexivity|].
  split; [apply (not_elem_of_dom (D := gset loc)); apply is_fresh|].
  assert (instances (Edge.__init__ [length] h).2 !! fresh (dom (instances h))
          = Some {["length" := length]}) as Hnew
    by (simpl; apply lookup_insert_eq).
  split; [done|].
  split; [intros l' Hl'; simpl; by rewrite lookup_insert_ne|].
  split; [done|]. split; [done|].
  split; [by rewrite (lambda_length_resolve _ _ _ Hnew)|].
  split; [by rewrite (lambda_time_resolve _ _ _ Hnew)|].
  intros [|x [|y args]] Hargs; simpl in *; done.
Qed.

(** ** Reversal, continued *)

(** The source vertices of the reversed graph are the destinations of the
    arcs of [self]. *)
Lemma rev_inv_keys h self r R hr :
  rev_inv h self r (λ _ _, True) (λ d, ∃ s, is_Some (edge_at h self s d)) R hr →
  ∀ d, d ∈ dict_keys R ↔ ∃ s e, edge_at h self s d = Some e.
Proof.
  intros Hinv d. split.
  - intros [v Hd]%dict_keys_get.
    destruct (inv_sources _ _ _ _ _ _ _ Hinv _ _ Hd) as (s & e & He). by exists s, e.
  - intros (s & e & He).
    assert (edge_at hr r d s = Some e) as Hrev
      by (by apply (inv_arcs _ _ _ _ _ _ _ Hinv)).
    apply edge_at_Some in Hrev as (g' & v & o & Hg' & Hv & _).
    rewrite (inv_graphs _ _ _ _ _ _ _ Hinv), lookup_insert_eq in Hg'.
    injection Hg' as <-. simpl in Hv. apply dict_keys_get. by rewrite Hv.
Qed.

Lemma graph_iter_ret G h g :
  graphs h !! G = Some g → RoadGraph.__iter__ G h = (Ret (dict_keys (graph g)), h).
Proof. intros Hg. unfold RoadGraph.__iter__. by step. Qed.

Lemma graph_len_ret G h g :
  graphs h !! G = Some g → RoadGraph.__len__ G h = (Ret (length (graph g)), h).
Proof. intros Hg. unfold RoadGraph.__len__. by step. Qed.

Lemma rev_inv_lookup h self r P Q R hr :
  rev_inv h self r P Q R hr →
  graphs hr !! r
  = Some {| graph := R; _edge_weight_fun := Some (Fn RoadGraph.lambda_length) |}.
Proof.
  intros Hinv. rewrite (inv_graphs _ _ _ _ _ _ _ Hinv). apply lookup_insert_eq.
Qed.

(** X11. The vertices of the reversed graph are exactly the vertices in
    which an arc of the graph ends, each once: a vertex with no incoming arc
    is no key of the reversal, and the reversal of a graph without arcs is
    empty. *)
Theorem reverse_sources (h : heap) (self : loc) :
  graph_ok h self →
  ∃ r hr ks,
    RoadGraph.reverse self h = (Ret r, hr) ∧
    RoadGraph.__iter__ r hr = (Ret ks, hr) ∧
    RoadGraph.__len__ r hr = (Ret (length ks), hr) ∧
    NoDup ks ∧
    (∀ d, d ∈ ks ↔ ∃ s e, edge_at h self s d = Some e) ∧
    ((∀ s d, edge_at h self s d = None) → ks = []).
Proof.
  intros Hok.
  destruct (reverse_spec h self Hok) as (r & R & hr & Hrun & Hr & Hinv).
  pose proof (rev_inv_lookup _ _ _ _ _ _ _ Hinv) as HR.
  pose proof (rev_inv_keys _ _ _ _ _ Hinv) as Hkeys.
  exists r, hr, (dict_keys R). split; [done|].
  split; [by erewrite graph_iter_ret by exact HR|].
  split.
  { erewrite graph_len_ret by exact HR. simpl.
    unfold dict_keys. by rewrite length_fmap. }
  split; [apply (inv_nodup _ _ _ _ _ _ _ Hinv)|].
  split; [done|].
  intros Hnone. destruct (dict_keys R) as [|d ks] eqn:Hks; [done|].
  destruct (proj1 (Hkeys d)) as (s & e & He); [by left|].
  by rewrite Hnone in He.
Qed.

Lemma reverse_sources_witness :
  ∃ r hr ks,
    RoadGraph.reverse 1 example_heap = (Ret r, hr) ∧
    RoadGraph.__iter__ r hr = (Ret ks, hr) ∧
    RoadGraph.__len__ r hr = (Ret (length ks), hr) ∧
    NoDup ks ∧
    (∀ d, d ∈ ks ↔ ∃ s e, edge_at example_heap 1 s d = Some e) ∧
    ((∀ s d, edge_at example_heap 1 s d = None) → ks = []).
Proof.
  apply (reverse_sources example_heap 1).
  apply (bool_decide_unpack _). vm_compute. exact I.
Defined.

(** X12. Reversing twice keeps the arcs but not all the vertices: the
    vertices of the second reversal are exactly the vertices of the graph
    that have an outgoing arc, so a vertex whose container is empty is
    gone. *)
Theorem reverse_reverse_vertices (h : heap) (self : loc) :
  graph_ok h self →
  ∃ r1 h1 r2 h2 ks,
    RoadGraph.reverse self h = (Ret r1, h1) ∧
    RoadGraph.reverse r1 h1 = (Ret r2, h2) ∧
    RoadGraph.__iter__ r2 h2 = (Ret ks, h2) ∧
    (∀ s, s ∈ ks ↔ ∃ d e, edge_at h self s d = Some e) ∧
    (∀ s g v o, graphs h !! self = Some g →
                dict_get s (graph g) = Some v →
                voes h !! v = Some o →
                edges o = [] →
                s ∉ ks).
Proof.
  intros Hok.
  destruct (reverse_spec h self Hok) as (r1 & R1 & h1 & Hrun1 & Hr1 & Hinv1).
  pose proof (rev_inv_graph_ok _ _ _ _ _ _ _ Hinv1) as Hok1.
  destruct (reverse_spec h1 r1 Hok1) as (r2 & R2 & h2 & Hrun2 & Hr2 & Hinv2).
  pose proof (rev_inv_lookup _ _ _ _ _ _ _ Hinv2) as HR2.
  assert (∀ s, s ∈ dict_keys R2 ↔ ∃ d e, edge_at h self s d = Some e) as Hkeys.
  { intros s. rewrite (rev_inv_keys _ _ _ _ _ Hinv2 s). split.
    - intros (d & e & He). exists d, e.
      by apply (inv_arcs _ _ _ _ _ _ _ Hinv1) in He as [_ He].
    - intros (d & e & He). exists d, e.
      by apply (inv_arcs _ _ _ _ _ _ _ Hinv1). }
  exists r1, h1, r2, h2, (dict_keys R2). split; [done|]. split; [done|].
  split; [by erewrite graph_iter_ret by exact HR2|].
  split; [done|].
  intros s g v o Hg Hv Ho Hempty [d [e He]]%Hkeys.
  apply edge_at_Some in He as (g' & v' & o' & Hg' & Hv' & Ho' & He).
  assert (g' = g) as -> by congruence.
  assert (v' = v) as -> by congruence.
  assert (o' = o) as -> by congruence.
  by rewrite Hempty in He.
Qed.

Lemma reverse_reverse_vertices_witness :
  ∃ r1 h1 r2 h2 ks,
    RoadGraph.reverse 1 example_heap = (Ret r1, h1) ∧
    RoadGraph.reverse r1 h1 = (Ret r2, h2) ∧
    RoadGraph.__iter__ r2 h2 = (Ret ks, h2) ∧
    (∀ s, s ∈ ks ↔ ∃ d e, edge_at example_heap 1 s d = Some e) ∧
    (∀ s g v o, graphs example_heap !! 1%positive = Some g →
                dict_get s (graph g) = Some v →
                voes example_heap !! v = Some o →
                edges o = [] →
                s ∉ ks).
Proof.
  apply (reverse_reverse_vertices example_heap 1).
  apply (bool_decide_unpack _). vm_compute. exact I.
Defined.

(** X13. The containers of the reversed graph are new objects whose parent
    is the reversed graph, so a weighted read through the reversed graph uses
    the default function whatever the mode of the original is: for an arc
    from [s] to [d] with the edge [l], [reversed[d][s]] is the weight of [l]
    if it has one and its length otherwise. *)
Theorem reverse_weighted_read (h : heap) (self : loc) (s d : value) (l : loc)
    (a : gmap string value) :
  graph_ok h self →
  edge_at h self s d = Some (VObj l) →
  instances h !! l = Some a →
  ∃ r hr v o,
    RoadGraph.reverse self h = (Ret r, hr) ∧
    RoadGraph.__getitem__ r d hr = (Ret v, hr) ∧
    voes h !! v = None ∧
    voes hr !! v = Some o ∧
    road_graph o = r ∧
    VertexOutgoingEdges.__getitem__ v s hr = (resolve "length" a, hr).
Proof.
  intros Hok He Ha.
  destruct (reverse_spec h self Hok) as (r & R & hr & Hrun & Hr & Hinv).
  pose proof (rev_inv_lookup _ _ _ _ _ _ _ Hinv) as HR.
  assert (edge_at hr r d s = Some (VObj l)) as Hrev
    by (by apply (inv_arcs _ _ _ _ _ _ _ Hinv)).
  apply edge_at_Some in Hrev as (g' & v & o & Hg' & Hv & Ho & Hedge).
  rewrite HR in Hg'. injection Hg' as <-. simpl in Hv.
  destruct (inv_new _ _ _ _ _ _ _ Hinv _ _ Hv) as [Hnew [E HE]].
  assert (o = {| road_graph := r; edges := E |}) as -> by congruence.
  exists r, hr, v, {| road_graph := r; edges := E |}.
  split; [done|].
  split; [by eapply graph_getitem_ret|].
  split; [done|]. split; [done|]. split; [done|].
  erewrite voe_getitem_ret; [|exact Ho|exact Hedge|exact HR|reflexivity].
  rewrite (inv_instances _ _ _ _ _ _ _ Hinv).
  by rewrite (lambda_length_resolve _ _ _ Ha).
Qed.

Lemma reverse_weighted_read_witness :
  VertexOutgoingEdges.__getitem__ 1 (VStr "B") example_time_heap
  = (Ret (VNum 2), example_time_heap) ∧
  ∃ r hr v o,
    RoadGraph.reverse 1 example_time_heap = (Ret r, hr) ∧
    RoadGraph.__getitem__ r (VStr "B") hr = (Ret v, hr) ∧
    voes example_time_heap !! v = None ∧
    voes hr !! v = Some o ∧
    road_graph o = r ∧
    VertexOutgoingEdges.__getitem__ v (VStr "A") hr = (Ret (VNum 5), hr).
Proof.
  split; [reflexivity|].
  refine (reverse_weighted_read example_time_heap 1 (VStr "A") (VStr "B") 1
            {["time" := VNum 2; "length" := VNum 5]} _ eq_refl eq_refl).
  apply (bool_decide_unpack _). vm_compute. exact I.
Defined.

(** X14. The reversed graph shares its edges with the original. With the
    original in ["length"] or ["time"] mode and its containers referring to
    it, a weight assigned through the reversed graph,
    [reversed[d][s] = val], is what the original reads for the arc
    afterwards: [graph[s][d]] returns [val]. *)
Theorem reverse_shares_edges (h : heap) (self : loc) (g : graph_object) (f : pyfun)
    (s d val : value) (v : loc) (o : voe_object) (l : loc) (a : gmap string value) :
  graph_ok h self →
  graphs h !! self = Some g →
  _edge_weight_fun g = Some (Fn f) →
  f = RoadGraph.lambda_length ∨ f = RoadGraph.lambda_time →
  dict_get s (graph g) = Some v →
  voes h !! v = Some o →
  road_graph o = self →
  dict_get d (edges o) = Some (VObj l) →
  instances h !! l = Some a →
  ∃ r hr hw,
    RoadGraph.reverse self h = (Ret r, hr) ∧
    (rv <- RoadGraph.__getitem__ r d ;;
     VertexOutgoingEdges.__setitem__ rv s val) hr = (Ret tt, hw) ∧
    (sv <- RoadGraph.__getitem__ self s ;;
     VertexOutgoingEdges.__getitem__ sv d) hw = (Ret val, hw).
Proof.
  intros Hok Hg Hf Hmode Hs Ho Hparent Hd Ha.
  destruct (reverse_spec h self Hok) as (r & R & hr & Hrun & Hr & Hinv).
  pose proof (rev_inv_lookup _ _ _ _ _ _ _ Hinv) as HR.
  assert (edge_at h self s d = Some (VObj l)) as He
    by (apply edge_at_Some; by exists g, v, o).
  assert (edge_at hr r d s = Some (VObj l)) as Hrev
    by (by apply (inv_arcs _ _ _ _ _ _ _ Hinv)).
  apply edge_at_Some in Hrev as (g' & rv & ro & Hg' & Hrv & Hro & Hedge).
  rewrite HR in Hg'. injection Hg' as <-. simpl in Hrv.
  assert (instances hr !! l = Some a) as Ha'
    by (by rewrite (inv_instances _ _ _ _ _ _ _ Hinv)).
  assert (graphs hr !! self = Some g) as Hg'.
  { rewrite (inv_graphs _ _ _ _ _ _ _ Hinv), lookup_insert_ne; [done|].
    intros <-. congruence. }
  exists r, hr, (with_weight l a val hr). split; [done|]. split.
  - erewrite bind_ret by (by eapply graph_getitem_ret).
    by eapply voe_setitem_ret.
  - erewrite bind_ret by (by eapply (graph_getitem_ret self g s v)).
    erewrite (voe_getitem_ret v d (with_weight l a val hr) o (VObj l) g f);
      [|by apply (inv_voes _ _ _ _ _ _ _ Hinv)|done|by rewrite Hparent|done].
    simpl. destruct Hmode as [-> | ->].
    + erewrite lambda_length_resolve by apply lookup_insert_eq.
      by rewrite resolve_weight.
    + erewrite lambda_time_resolve by apply lookup_insert_eq.
      by rewrite resolve_weight.
Qed.

Lemma reverse_shares_edges_witness :
  ∃ r hr hw,
    RoadGraph.reverse 1 example_time_heap = (Ret r, hr) ∧
    (rv <- RoadGraph.__getitem__ r (VStr "B") ;;
     VertexOutgoingEdges.__setitem__ rv (VStr "A") (VNum 9)) hr = (Ret tt, hw) ∧
    (sv <- RoadGraph.__getitem__ 1 (VStr "A") ;;
     VertexOutgoingEdges.__getitem__ sv (VStr "B")) hw = (Ret (VNum 9), hw).
Proof.
  refine (reverse_shares_edges example_time_heap 1
            {| graph := [(VStr "A", 1%positive); (VStr "B", 2%positive)];
               _edge_weight_fun := Some (Fn RoadGraph.lambda_time) |}
            RoadGraph.lambda_time (VStr "A") (VStr "B") (VNum 9) 1
            {| road_graph := 1; edges := [(VStr "B", VObj 1)] |}
            1 {["time" := VNum 2; "length" := VNum 5]}
            _ eq_refl eq_refl (or_intror eq_refl) eq_refl eq_refl eq_refl eq_refl eq_refl).
  apply (bool_decide_unpack _). vm_compute. exact I.
Defined.

(** ** Distinct keys are kept *)

Lemma keeps_weaken {A} (Φ : heap → Prop) (c : M A) (Ψ Ψ' : A → Prop) :
  (∀ a, Ψ a → Ψ' a) → keeps Φ c Ψ → keeps Φ c Ψ'.
Proof.
  intros HΨ Hc h Hh. destruct (Hc h Hh) as [H1 H2]. split; [done|].
  intros a Ha. by apply HΨ, H2.
Qed.

Lemma keeps_ret {A} (Φ : heap → Prop) (a : A) (Ψ : A → Prop) :
  Ψ a → keeps Φ (ret a) Ψ.
Proof. intros Ha h Hh. split; [done|]. by intros a' [= <-]. Qed.

Lemma keeps_raise {A} (Φ : heap → Prop) e (Ψ : A → Prop) : keeps Φ (raise e) Ψ.
Proof. intros h Hh. split; done. Qed.

Lemma keeps_bind {A B} (Φ : heap → Prop) (c : M A) (k : A → M B)
    (Ψ : A → Prop) (Ψ' : B → Prop) :
  keeps Φ c Ψ → (∀ a, Ψ a → keeps Φ (k a) Ψ') → keeps Φ (bind c k) Ψ'.
Proof.
  intros Hc Hk h Hh. destruct (Hc h Hh) as [H1 H2]. unfold bind.
  destruct (c h) as [[a| |] h1]; simpl in *; [|done..].
  apply (Hk a); [by apply H2 | done].
Qed.

Lemma keeps_try_except {A} (Φ : heap → Prop) (c handler : M A) e (Ψ : A → Prop) :
  keeps Φ c Ψ → keeps Φ handler Ψ → keeps Φ (try_except c e handler) Ψ.
Proof.
  intros Hc Hh h HΦ. destruct (Hc h HΦ) as [H1 H2]. unfold try_except.
  destruct (c h) as [[a|e'|] h1]; simpl in *; [done| |done].
  destruct (decide (e' = e)); [by apply Hh | done].
Qed.

Lemma keeps_for_each {A} (Φ : heap → Prop) (xs : list A) (body : A → M unit) :
  (∀ x, keeps Φ (body x) (λ _, True)) → keeps Φ (for_each xs body) (λ _, True).
Proof.
  intros Hbody. induction xs as [|x xs IH]; simpl.
  - by apply keeps_ret.
  - eapply keeps_bind; [apply Hbody | by intros _ _].
Qed.

Lemma keeps_subscript {V} (Φ : heap → Prop) (d : dict V) k :
  keeps Φ (subscript d k) (λ _, True).
Proof.
  unfold subscript. destruct (dict_get k d); [by apply keeps_ret | apply keeps_raise].
Qed.

Lemma keeps_load_voe l :
  keeps keys_distinct (load_voe l) (λ o, NoDup (dict_keys (edges o))).
Proof.
  intros h Hh. unfold load_voe.
  destruct (voes h !! l) as [o|] eqn:Ho; simpl; [|done].
  split; [done|]. intros a [= <-]. by apply (proj1 Hh l o).
Qed.

Lemma keeps_load_graph l :
  keeps keys_distinct (load_graph l) (λ g, NoDup (dict_keys (graph g))).
Proof.
  intros h Hh. unfold load_graph.
  destruct (graphs h !! l) as [g|] eqn:Hg; simpl; [|done].
  split; [done|]. intros a [= <-]. by apply (proj2 Hh l g).
Qed.

Lemma keeps_store_voe l o :
  NoDup (dict_keys (edges o)) → keeps keys_distinct (store_voe l o) (λ _, True).
Proof.
  intros Hnd h [Hv Hg]. split; [|done]. split; [|done].
  simpl. by apply map_Forall_insert_2.
Qed.

Lemma keeps_alloc_voe o :
  NoDup (dict_keys (edges o)) → keeps keys_distinct (alloc_voe o) (λ _, True).
Proof.
  intros Hnd h [Hv Hg]. split; [|done]. split; [|done].
  simpl. by apply map_Forall_insert_2.
Qed.

Lemma keeps_store_graph l g :
  NoDup (dict_keys (graph g)) → keeps keys_distinct (store_graph l g) (λ _, True).
Proof.
  intros Hnd h [Hv Hg]. split; [|done]. split; [done|].
  simpl. by apply map_Forall_insert_2.
Qed.

Lemma keeps_alloc_graph g :
  NoDup (dict_keys (graph g)) → keeps keys_distinct (alloc_graph g) (λ _, True).
Proof.
  intros Hnd h [Hv Hg]. split; [|done]. split; [done|].
  simpl. by apply map_Forall_insert_2.
Qed.

Lemma keeps_reverse_inner self r from to :
  keeps keys_distinct (reverse_inner self r from to) (λ _, True).
Proof.
  unfold reverse_inner.
  eapply keeps_bind with (Ψ := λ _, True).
  { unfold RoadGraph.__contains__. apply keeps_try_except; [|by apply keeps_ret].
    eapply keeps_bind with (Ψ := λ _, True); [|intros; by apply keeps_ret].
    unfold RoadGraph.__getitem__.
    eapply keeps_bind; [apply keeps_load_graph|]. intros; apply keeps_subscript. }
  intros present _.
  eapply keeps_bind with (Ψ := λ _, True).
  { destruct present; [by apply keeps_ret|].
    eapply keeps_bind with (Ψ := λ _, True).
    - unfold VertexOutgoingEdges.__init__. apply keeps_alloc_voe. apply NoDup_nil_2.
    - intros o _. unfold RoadGraph.__setitem__.
      eapply keeps_bind; [apply keeps_load_graph|].
      intros g Hg. apply keeps_store_graph. simpl. by apply dict_set_NoDup. }
  intros _ _.
  eapply keeps_bind with (Ψ := λ _, True).
  { unfold RoadGraph.__getitem__.
    eapply keeps_bind; [apply keeps_load_graph|]. intros; apply keeps_subscript. }
  intros target _.
  eapply keeps_bind; [apply keeps_load_graph|]. intros g _.
  eapply keeps_bind; [apply keeps_subscript|]. intros v _.
  eapply keeps_bind with (Ψ := λ _, True).
  { unfold VertexOutgoingEdges.get_edge.
    eapply keeps_bind; [apply keeps_load_voe|]. intros; apply keeps_subscript. }
  intros e _. unfold VertexOutgoingEdges.set_edge.
  eapply keeps_bind; [apply keeps_load_voe|].
  intros o Ho. apply keeps_store_voe. simpl. by apply dict_set_NoDup.
Qed.

Lemma keeps_reverse self :
  keeps keys_distinct (RoadGraph.reverse self) (λ _, True).
Proof.
  rewrite reverse_unfold.
  eapply keeps_bind with (Ψ := λ _, True).
  { unfold RoadGraph.__init__.
    eapply keeps_bind with (Ψ := λ _, True).
    - apply keeps_alloc_graph. apply NoDup_nil_2.
    - intros r _. eapply keeps_bind with (Ψ := λ _, True); [|intros; by apply keeps_ret].
      unfold RoadGraph.set_edge_weight_function; simpl.
      unfold RoadGraph.set_weight_fun.
      eapply keeps_bind; [apply keeps_load_graph|].
      intros g Hg. by apply keeps_store_graph. }
  intros r _.
  eapply keeps_bind; [apply keeps_load_graph|]. intros g _.
  eapply keeps_bind with (Ψ := λ _, True); [|intros; by apply keeps_ret].
  apply keeps_for_each. intros from. unfold reverse_outer.
  eapply keeps_bind; [apply keeps_load_graph|]. intros g' _.
  eapply keeps_bind; [apply keeps_subscript|]. intros v _.
  eapply keeps_bind with (Ψ := λ _, True).
  { unfold VertexOutgoingEdges.__iter__.
    eapply keeps_bind; [apply keeps_load_voe|]. intros; by apply keeps_ret. }
  intros tos _. apply keeps_for_each. intros to. apply keeps_reverse_inner.
Qed.

(** ** The number of arcs *)

Lemma length_arcs_of h G : length (arcs_of h G) = edge_count h G.
Proof.
  unfold arcs_of, edge_count. destruct (graphs h !! G) as [g|]; [|done].
  induction (graph g) as [|[k v] l IH]; [done|].
  rewrite bind_cons, length_app, IH. simpl.
  destruct (voes h !! v) as [o|]; [|done]. by rewrite length_fmap.
Qed.

Lemma elem_of_arcs_of h G s d e :
  keys_distinct h → (s, d, e) ∈ arcs_of h G ↔ edge_at h G s d = Some e.
Proof.
  intros [Hv Hg]. rewrite edge_at_Some. unfold arcs_of. split.
  - destruct (graphs h !! G) as [g|] eqn:HG; [|by intros ?%elem_of_nil].
    intros ([k v] & Hin & Hkv)%list_elem_of_bind. simpl in Hin.
    destruct (voes h !! v) as [o|] eqn:Ho; [|by apply elem_of_nil in Hin].
    apply list_elem_of_fmap in Hin as ([d' e'] & [= -> -> ->] & Hde).
    exists g, v, o. split; [done|].
    split; [apply elem_of_dict_get; [by apply (Hg G g) | done]|].
    split; [done|]. apply elem_of_dict_get; [by apply (Hv v o) | done].
  - intros (g & v & o & -> & Hs & Ho & Hd).
    apply list_elem_of_bind. exists (s, v). simpl. rewrite Ho.
    split; [|by apply dict_get_elem_of].
    apply list_elem_of_fmap. exists (d, e). split; [done|].
    by apply dict_get_elem_of.
Qed.

Lemma NoDup_arcs_of h G : keys_distinct h → NoDup (arcs_of h G).
Proof.
  intros [Hv Hg]. unfold arcs_of.
  destruct (graphs h !! G) as [g|] eqn:HG; [|apply NoDup_nil_2].
  pose proof (Hg G g HG) as Hnd. simpl in Hnd.
  apply NoDup_bind.
  - intros [k1 v1] [k2 v2] [[s d] e] H1 H2 Hy1 Hy2. simpl in *.
    destruct (voes h !! v1) as [o1|]; [|by apply elem_of_nil in Hy1].
    destruct (voes h !! v2) as [o2|]; [|by apply elem_of_nil in Hy2].
    apply list_elem_of_fmap in Hy1 as (de1 & [= -> _ _] & _).
    apply list_elem_of_fmap in Hy2 as (de2 & [= -> _ _] & _).
    apply (elem_of_dict_get _ _ _ Hnd) in H1, H2. congruence.
  - intros [k v] Hkv. simpl.
    destruct (voes h !! v) as [o|] eqn:Ho; [|apply NoDup_nil_2].
    apply NoDup_fmap_2_strong.
    + intros [d1 e1] [d2 e2] _ _ [= -> ->]. done.
    + eapply NoDup_fmap_1. apply (Hv v o Ho).
  - by eapply NoDup_fmap_1.
Qed.

(** X15. [reverse] keeps the number of arcs: the lengths of the containers
    of the reversed graph add up to what the lengths of the containers of the
    graph add up to. *)
Theorem reverse_edge_count (h : heap) (self : loc) :
  graph_ok h self →
  keys_distinct h →
  ∃ r hr,
    RoadGraph.reverse self h = (Ret r, hr) ∧
    edge_count hr r = edge_count h self.
Proof.
  intros Hok Hkd.
  destruct (reverse_spec h self Hok) as (r & R & hr & Hrun & Hr & Hinv).
  exists r, hr. split; [done|].
  assert (keys_distinct hr) as Hkd'.
  { pose proof (proj1 (keeps_reverse self h Hkd)) as Hkeeps.
    by rewrite Hrun in Hkeeps. }
  rewrite <- !length_arcs_of.
  rewrite <- (length_fmap (λ x : value * value * value, (x.1.2, x.1.1, x.2))
               (arcs_of h self)).
  apply Permutation_length, NoDup_Permutation.
  - by apply NoDup_arcs_of.
  - apply NoDup_fmap_2_strong; [|by apply NoDup_arcs_of].
    intros [[s1 d1] e1] [[s2 d2] e2] _ _ [= -> -> ->]. done.
  - intros [[a b] e]. rewrite elem_of_arcs_of by done.
    rewrite (inv_arcs _ _ _ _ _ _ _ Hinv), list_elem_of_fmap. split.
    + intros [_ He]. exists (b, a, e). split; [done|]. by apply elem_of_arcs_of.
    + intros ([[s d] e'] & [= -> -> ->] & Hin). split; [done|].
      by apply elem_of_arcs_of in Hin.
Qed.

Lemma reverse_edge_count_witness :
  ∃ r hr,
    RoadGraph.reverse 1 example_heap = (Ret r, hr) ∧
    edge_count hr r = edge_count example_heap 1.
Proof.
  apply (reverse_edge_count example_heap 1).
  - apply (bool_decide_unpack _). vm_compute. exact I.
  - apply (bool_decide_unpack _). vm_compute. exact I.
Defined.

Example example_edge_count :
  edge_count example_heap 1 = 2 ∧ edge_count example_reversed_heap 2 = 2.
Proof. split; vm_compute; reflexivity. Qed.

(** ** New containers and graphs *)

(** X16. [VertexOutgoingEdges(parent)] returns a new, empty container: its
    length is 0, it iterates over nothing, and for every destination
    [get_edge], the weighted read and the weight-style assignment raise
    [KeyError], so only [set_edge] can give it a first entry. The parent is
    stored as given, and the objects of the old store are as before. *)
Theorem voe_init_empty (parent : loc) (h : heap) :
  ∃ l h',
    VertexOutgoingEdges.__init__ parent h = (Ret l, h') ∧
    voes h !! l = None ∧
    voes h' !! l = Some {| road_graph := parent; edges := [] |} ∧
    (∀ l', l' ≠ l → voes h' !! l' = voes h !! l') ∧
    instances h' = instances h ∧
    graphs h' = graphs h ∧
    VertexOutgoingEdges.__len__ l h' = (Ret 0, h') ∧
    VertexOutgoingEdges.__iter__ l h' = (Ret [], h') ∧
    (∀ k val,
       VertexOutgoingEdges.get_edge l k h' = (Raise KeyError, h') ∧
       VertexOutgoingEdges.__getitem__ l k h' = (Raise KeyError, h') ∧
       VertexOutgoingEdges.__setitem__ l k val h' = (Raise KeyError, h')).
Proof.
  exists (fresh (dom (voes h))), (with_edges (fresh (dom (voes h))) parent [] h).
  assert (voes (with_edges (fresh (dom (voes h))) parent [] h)
            !! fresh (dom (voes h))
          = Some {| road_graph := parent; edges := [] |}) as Hnew
    by (simpl; apply lookup_insert_eq).
  split; [reflexivity|]. split; [apply fresh_voe|]. split; [done|].
  split; [intros l' Hl'; simpl; by rewrite lookup_insert_ne|].
  split; [done|]. split; [done|].
  split; [unfold VertexOutgoingEdges.__len__; by step|].
  split; [unfold VertexOutgoingEdges.__iter__; by step|].
  intros k val.
  split; [by eapply voe_get_edge_raise|].
  split.
  - unfold VertexOutgoingEdges.__getitem__. by do 2 step.
  - unfold VertexOutgoingEdges.__setitem__. by do 2 step.
Qed.

(** X17. [RoadGraph()] returns a new, empty graph: its length is 0, it
    iterates over nothing, no vertex is in it, [graph[key]] raises [KeyError]
    for every key, and its weight function is the default one. The objects of
    the old store are as before. *)
Theorem graph_init_empty (h : heap) :
  ∃ l h',
    RoadGraph.__init__ h = (Ret l, h') ∧
    graphs h !! l = None ∧
    (∀ l', l' ≠ l → graphs h' !! l' = graphs h !! l') ∧
    instances h' = instances h ∧
    voes h' = voes h ∧
    RoadGraph.__len__ l h' = (Ret 0, h') ∧
    RoadGraph.__iter__ l h' = (Ret [], h') ∧
    RoadGraph.get_edge_weight_function l h' = (Ret (Fn RoadGraph.lambda_length), h') ∧
    (∀ k, RoadGraph.__getitem__ l k h' = (Raise KeyError, h') ∧
          RoadGraph.__contains__ l k h' = (Ret false, h')).
Proof.
  exists (fresh (dom (graphs h))), (with_new_graph h).
  assert (graphs (with_new_graph h) !! fresh (dom (graphs h))
          = Some {| graph := [];
                    _edge_weight_fun := Some (Fn RoadGraph.lambda_length) |}) as Hnew
    by (simpl; apply lookup_insert_eq).
  split; [apply init_ret|]. split; [apply fresh_graph|].
  split; [intros l' Hl'; simpl; by rewrite lookup_insert_ne|].
  split; [done|]. split; [done|].
  split; [by erewrite graph_len_ret by exact Hnew|].
  split; [by erewrite graph_iter_ret by exact Hnew|].
  split; [by eapply get_edge_weight_function_ret|].
  intros k. split; [by eapply graph_getitem_raise|].
  by erewrite contains_ret by exact Hnew.
Qed.

(** X18. The reversed graph is independent of the original as a mapping:
    after [reverse], a [set_edge] on a container of the old store leaves
    every arc of the reversed graph as it is, and a [set_edge] on a container
    of the reversed graph leaves every arc of the original as it is. *)
Theorem reverse_independent (h : heap) (self : loc) :
  graph_ok h self →
  ∃ r hr,
    RoadGraph.reverse self h = (Ret r, hr) ∧
    (∀ v o dest edge,
       voes h !! v = Some o →
       ∃ h', VertexOutgoingEdges.set_edge v dest edge hr = (Ret tt, h') ∧
             ∀ a b, edge_at h' r a b = edge_at hr r a b) ∧
    (∀ d rv dest edge,
       RoadGraph.__getitem__ r d hr = (Ret rv, hr) →
       ∃ h', VertexOutgoingEdges.set_edge rv dest edge hr = (Ret tt, h') ∧
             ∀ a b, edge_at h' self a b = edge_at h self a b).
Proof.
  intros Hok.
  destruct (reverse_spec h self Hok) as (r & R & hr & Hrun & Hr & Hinv).
  pose proof (rev_inv_lookup _ _ _ _ _ _ _ Hinv) as HR.
  pose proof Hok as (g & Hself & Hentries)%graph_ok_entries.
  assert (graphs hr !! self = Some g) as Hself'.
  { rewrite (inv_graphs _ _ _ _ _ _ _ Hinv), lookup_insert_ne; [done|].
    intros <-. congruence. }
  exists r, hr. split; [done|]. split.
  - intros v o dest edge Ho.
    pose proof (inv_voes _ _ _ _ _ _ _ Hinv _ _ Ho) as Ho'.
    eexists. split; [by apply voe_set_edge_ret|].
    intros a b. unfold edge_at, with_edges. simpl. rewrite HR. simpl.
    destruct (dict_get a R) as [rv|] eqn:Ha; [|done]. simpl.
    destruct (inv_new _ _ _ _ _ _ _ Hinv _ _ Ha) as [Hnew _].
    rewrite lookup_insert_ne; [done|]. intros <-. congruence.
  - intros d rv dest edge Hget.
    assert (dict_get d R = Some rv) as Hd.
    { unfold RoadGraph.__getitem__ in Hget.
      erewrite bind_ret in Hget by (by apply load_graph_ret).
      unfold subscript in Hget. simpl in Hget.
      destruct (dict_get d R); [by injection Hget as -> | done]. }
    destruct (inv_new _ _ _ _ _ _ _ Hinv _ _ Hd) as [Hnew [E HE]].
    eexists. split; [by apply voe_set_edge_ret|].
    intros a b. unfold edge_at, with_edges. simpl. rewrite Hself', Hself. simpl.
    destruct (dict_get a (graph g)) as [v|] eqn:Ha; [|done]. simpl.
    destruct (Hentries _ _ Ha) as [o Ho].
    rewrite lookup_insert_ne by (intros <-; congruence).
    by rewrite (inv_voes _ _ _ _ _ _ _ Hinv _ _ Ho), Ho.
Qed.

Lemma reverse_independent_witness :
  ∃ r hr,
    RoadGraph.reverse 1 example_heap = (Ret r, hr) ∧
    (∀ v o dest edge,
       voes example_heap !! v = Some o →
       ∃ h', VertexOutgoingEdges.set_edge v dest edge hr = (Ret tt, h') ∧
             ∀ a b, edge_at h' r a b = edge_at hr r a b) ∧
    (∀ d rv dest edge,
       RoadGraph.__getitem__ r d hr = (Ret rv, hr) →
       ∃ h', VertexOutgoingEdges.set_edge rv dest edge hr = (Ret tt, h') ∧
             ∀ a b, edge_at h' 1 a b = edge_at example_heap 1 a b).
Proof.
  apply (reverse_independent example_heap 1).
  apply (bool_decide_unpack _). vm_compute. exact I.
Defined.
